(** * Scheduling and availability engine of the clinic back office

    A shallow embedding of the appointment handlers of
    [src/controllers/appointmentController.js] and of the schedule handler of
    [src/controllers/doctorController.js], together with the part of the
    document store the handlers talk to.

    The handlers are request scoped and keep no state of their own: the only
    state is the store.  Every handler is therefore a function of the request
    and of the store; a handler that writes returns the new store next to its
    response.  The identifier generator ([uuidv4]) and the clock
    ([new Date().toISOString()]) are inputs of the handlers that use them,
    and so is the part of the JavaScript runtime that reads and formats the
    local dates of [getAvailableSlots]: the parser of date strings, the time
    zone of the server and the formatter of times. *)

From Stdlib Require Import ZArith String Ascii List Lia.
From stdpp Require Import gmap strings list fin_maps sorting.

Local Open Scope string_scope.

(** ** Values and items *)

(** Attribute values.  Every attribute the scheduling handlers read or write
    (identifiers, dates, times, status, timestamps, free text) is a string; a
    JSON body can also carry [null].  An attribute that is [undefined] is an
    absent key, that is [None] at lookup. *)
Inductive value : Type :=
| VNull
| VStr (s : string).

#[global] Instance value_eq_dec : EqDecision value.
Proof. solve_decision. Defined.

(** A JavaScript object with string keys: a request body, a stored item. *)
Abbreviation item := (gmap string value).

(** [!v] is [negb (truthy v)]: [undefined], [null] and the empty string are
    falsy, every other string is truthy. *)
Definition truthy (v : option value) : bool :=
  match v with
  | Some (VStr s) => negb (String.eqb s "")
  | _ => false
  end.

(** [a || b] *)
Definition jsOr (a b : option value) : option value :=
  if truthy a then a else b.

(** An object literal.  Properties are defined from left to right; a property
    whose value is [undefined] does not become an attribute of the item. *)
Definition object (fields : list (string * option value)) : item :=
  foldl (λ it f, match f.2 with Some v => <[f.1 := v]> it | None => it end)
        ∅ fields.

(** ** Responses *)

(** [res.status(code).json({success: true, data})] and
    [res.status(code).json({success: false, message})]; [res.json] alone is
    status 200. *)
Inductive response (A : Type) : Type :=
| Success (status : Z) (data : A)
| Failure (status : Z) (message : string).
Arguments Success {A} status data.
Arguments Failure {A} status message.

Definition statusOf {A} (r : response A) : Z :=
  match r with
  | Success s _ => s
  | Failure s _ => s
  end.

(** ** The document store *)

Module DynamoDB.

(** A table maps the primary key of an item to the attributes stored with
    it.  An item read back always carries its key attribute. *)
Abbreviation table := (gmap string item).

Definition keyed (keyName id : string) (it : item) : item :=
  <[keyName := VStr id]> it.

(** Conditions of key-condition and filter expressions, with the
    expression attribute values already substituted for the [:name]
    placeholders.  An operand may be [undefined]. *)
Inductive cond : Type :=
| CTrue
| CEq (attr : string) (v : option value)
| CNe (attr : string) (v : option value)
| CBetween (attr : string) (lo hi : option value)
| CAnd (c1 c2 : cond).

Definition between (lo hi : option value) (x : option value) : bool :=
  match lo, hi, x with
  | Some (VStr l), Some (VStr h), Some (VStr s) =>
      String.leb l s && String.leb s h
  | _, _, _ => false
  end.

Fixpoint evalCond (c : cond) (it : item) : bool :=
  match c with
  | CTrue => true
  | CEq a v =>
      match v with
      | Some x => bool_decide (it !! a = Some x)
      | None => false
      end
  | CNe a v => bool_decide (it !! a ≠ v)
  | CBetween a lo hi => between lo hi (it !! a)
  | CAnd c1 c2 => evalCond c1 it && evalCond c2 it
  end.

(** [GetCommand {TableName, Key}] *)
Definition GetCommand (keyName : string) (tbl : table) (id : string)
  : option item :=
  keyed keyName id <$> tbl !! id.

(** [PutCommand {TableName, Item}]: the item replaces whatever is stored
    under its key.  An item without a string key is rejected. *)
Definition PutCommand (keyName : string) (tbl : table) (it : item)
  : option table :=
  match it !! keyName with
  | Some (VStr id) => Some (<[id := it]> tbl)
  | _ => None
  end.

(** All items of a table, each with its key attribute. *)
Definition scan (keyName : string) (tbl : table) : list item :=
  (λ p, keyed keyName p.1 p.2) <$> map_to_list tbl.

Definition isStr (v : option value) : bool :=
  match v with
  | Some (VStr _) => true
  | _ => false
  end.

(** The secondary index [DoctorScheduleIndex] (partition key [doctorId],
    sort key [appointmentDate]) holds the items that carry both of its key
    attributes. *)
Definition inDoctorScheduleIndex (it : item) : bool :=
  isStr (it !! "doctorId") && isStr (it !! "appointmentDate").

(** The sort key of an item of the index. *)
Definition sortKey (it : item) : string :=
  match it !! "appointmentDate" with
  | Some (VStr s) => s
  | _ => EmptyString
  end.

Record Query : Type := {
  KeyConditionExpression : cond;
  FilterExpression : cond
}.

(** The store validates a query before it runs it.  An operand of the key
    condition must be a string, the type of both key attributes of the
    index, and the lower bound of [BETWEEN] must not be above its upper
    bound; a key condition compares with [=] and [BETWEEN] only. *)
Fixpoint validKeyCondition (c : cond) : bool :=
  match c with
  | CTrue => true
  | CEq _ v => isStr v
  | CNe _ _ => false
  | CBetween _ lo hi =>
      match lo, hi with
      | Some (VStr l), Some (VStr h) => String.leb l h
      | _, _ => false
      end
  | CAnd c1 c2 => validKeyCondition c1 && validKeyCondition c2
  end.

(** Every placeholder of a filter expression must have a value. *)
Definition bound (v : option value) : bool :=
  match v with
  | Some _ => true
  | None => false
  end.

Fixpoint validFilter (c : cond) : bool :=
  match c with
  | CTrue => true
  | CEq _ v | CNe _ v => bound v
  | CBetween _ lo hi => bound lo && bound hi
  | CAnd c1 c2 => validFilter c1 && validFilter c2
  end.

(** A query that fails the validation is answered with an error, which the
    handlers catch. *)
Definition validQuery (q : Query) : bool :=
  validKeyCondition (KeyConditionExpression q)
  && validFilter (FilterExpression q).

Definition selects (q : Query) (it : item) : bool :=
  inDoctorScheduleIndex it
  && evalCond (KeyConditionExpression q) it
  && evalCond (FilterExpression q) it.

(** [QueryCommand {TableName, IndexName: 'DoctorScheduleIndex', ...}]:
    the [Items] of the answer to a valid query, in ascending order of the
    sort key. *)
Definition QueryCommand (keyName : string) (tbl : table) (q : Query)
  : list item :=
  merge_sort (λ a b, Is_true (String.leb (sortKey a) (sortKey b)))
    (filter (λ it, Is_true (selects q it)) (scan keyName tbl)).

(** One [SET] action of an update expression: the path as written (an
    attribute name or a [#name] placeholder) and the [:name] placeholder of
    the value. *)
Record Update : Type := {
  UpdateExpression : list (string * string);
  ExpressionAttributeNames : gmap string string;
  ExpressionAttributeValues : gmap string value
}.

(** A placeholder is its sigil, [#] or [:], followed by one or more letters,
    digits or underscores. *)
Definition nameChar (c : ascii) : bool :=
  let n := nat_of_ascii c in
  ((48 <=? n) && (n <=? 57) || (65 <=? n) && (n <=? 90)
   || (97 <=? n) && (n <=? 122) || (n =? 95))%nat.

Fixpoint nameChars (s : string) : bool :=
  match s with
  | EmptyString => true
  | String c r => nameChar c && nameChars r
  end.

Definition placeholder (sigil : ascii) (s : string) : bool :=
  match s with
  | String c (String c' r) => Ascii.eqb c sigil && nameChars (String c' r)
  | _ => false
  end.

(** The maps of expression attribute names and values of a request must not
    be empty, and their keys must be placeholders. *)
Definition validPlaceholders (sigil : ascii) (keys : list string) : bool :=
  match keys with
  | [] => false
  | _ => forallb (placeholder sigil) keys
  end.

(** The value assigned to a key attribute of the index must be a non-empty
    string. *)
Definition validIndexKey (a : string * value) : bool :=
  if String.eqb a.1 "doctorId" || String.eqb a.1 "appointmentDate"
  then match a.2 with
       | VStr s => negb (String.eqb s "")
       | VNull => false
       end
  else true.

Definition resolveName (names : gmap string string) (path : string)
  : option string :=
  match path with
  | String "#" _ => names !! path
  | _ => Some path
  end.

Definition resolveAction (u : Update) (a : string * string)
  : option (string * value) :=
  match resolveName (ExpressionAttributeNames u) a.1,
        ExpressionAttributeValues u !! a.2 with
  | Some n, Some v => Some (n, v)
  | _, _ => None
  end.

Definition applySet (it : item) (a : string * value) : item :=
  <[a.1 := a.2]> it.

(** [UpdateCommand {TableName, Key, UpdateExpression, ..., ReturnValues:
    'ALL_NEW'}].  The request is rejected when one of its two maps is empty
    or has a key that is not a placeholder, when a placeholder of the
    expression is not bound, when two actions assign the same attribute
    (overlapping document paths), when an action assigns the key attribute
    of the table, or when the value for a key attribute of the index is not
    a non-empty string.  Otherwise the actions are applied to the stored
    item, or to a new item when nothing is stored under the key, and the
    answer carries the item as written. *)
Definition UpdateCommand (keyName : string) (tbl : table) (id : string)
    (u : Update) : option (table * item) :=
  if validPlaceholders "#" (map_to_list (ExpressionAttributeNames u)).*1
     && validPlaceholders ":" (map_to_list (ExpressionAttributeValues u)).*1
  then
    match mapM (resolveAction u) (UpdateExpression u) with
    | None => None
    | Some acts =>
        if bool_decide (NoDup acts.*1 ∧ keyName ∉ acts.*1)
           && forallb validIndexKey acts
        then
          let new := foldl applySet (default ∅ (tbl !! id)) acts in
          Some (<[id := new]> tbl, keyed keyName id new)
        else None
    end
  else None.

End DynamoDB.
Import DynamoDB.

(** A number attribute as the document client hands it to a handler as a
    JavaScript number: an integer within the safe integers.  (The client
    hands a stored integer outside that range over as a [BigInt]; such
    attributes are not numbers and have no representation here.) *)
Definition MAX_SAFE_INTEGER : Z := 9007199254740991.

Record number : Type := Number {
  numberValue : Z;
  numberSafe :
    Is_true ((- MAX_SAFE_INTEGER <=? numberValue)%Z
             && (numberValue <=? MAX_SAFE_INTEGER)%Z)
}.

(** Working hours and slot duration of a doctor, as projected by
    [ProjectionExpression: 'workingHours, slotDuration']. *)
Record WorkingHours : Type := {
  start : string;
  end_ : string
}.

Record Doctor : Type := {
  workingHours : option WorkingHours;
  slotDuration : option number
}.

(** The store: the [Appointments] table, keyed by [appointmentId], and the
    [Doctors] table, keyed by [doctorId]. *)
Record World : Type := {
  Appointments : gmap string item;
  Doctors : gmap string Doctor
}.

Definition withAppointments (w : World) (tbl : gmap string item) : World :=
  {| Appointments := tbl; Doctors := Doctors w |}.

(** ** The appointment handlers *)

(** [getAppointmentById] *)
Definition getAppointmentById (id : string) (w : World) : response item :=
  match GetCommand "appointmentId" (Appointments w) id with
  | None => Failure 404 "Appointment not found"
  | Some it => Success 200 it
  end.

(** The conflict query of [createAppointment]. *)
Definition createConflictCommand (doctorId appointmentDate appointmentTime
    : option value) : Query :=
  {| KeyConditionExpression :=
       CAnd (CEq "doctorId" doctorId) (CEq "appointmentDate" appointmentDate);
     FilterExpression := CEq "appointmentTime" appointmentTime |}.

(** The conflict query of [updateAppointment]. *)
Definition updateConflictCommand (doctorId appointmentDate appointmentTime
    : option value) (currentId : string) : Query :=
  {| KeyConditionExpression :=
       CAnd (CEq "doctorId" doctorId) (CEq "appointmentDate" appointmentDate);
     FilterExpression :=
       CAnd (CEq "appointmentTime" appointmentTime)
            (CNe "appointmentId" (Some (VStr currentId))) |}.

(** The conflict check of both handlers: the query is sent and the slot
    counts as taken when the answer has an item
    ([conflictCheck.Items && conflictCheck.Items.length > 0]).  Create
    excludes no appointment, Update excludes the one it updates. *)
Definition hasConflict (tbl : gmap string item)
    (doctorId appointmentDate appointmentTime : option value)
    (excludeAppointmentId : option string) : bool :=
  let conflictCommand :=
    match excludeAppointmentId with
    | None => createConflictCommand doctorId appointmentDate appointmentTime
    | Some id =>
        updateConflictCommand doctorId appointmentDate appointmentTime id
    end in
  let conflictCheck := QueryCommand "appointmentId" tbl conflictCommand in
  (0 <? length conflictCheck)%nat.

(** [createAppointment]: [uuid] is the value of [uuidv4()], [createdNow] and
    [updatedNow] are the two readings of the clock. *)
Definition createAppointment (uuid createdNow updatedNow : string)
    (body : item) (w : World) : response item * World :=
  let patientId := body !! "patientId" in
  let doctorId := body !! "doctorId" in
  let appointmentDate := body !! "appointmentDate" in
  let appointmentTime := body !! "appointmentTime" in
  let appointmentType := body !! "appointmentType" in
  let notes := body !! "notes" in
  if negb (truthy patientId) || negb (truthy doctorId)
     || negb (truthy appointmentDate) || negb (truthy appointmentTime)
  then (Failure 400 "Missing required fields", w)
  else
    if hasConflict (Appointments w) doctorId appointmentDate appointmentTime
         None
    then (Failure 409 "Time slot is already booked", w)
    else
      let appointment :=
        object [("appointmentId", Some (VStr uuid));
                ("patientId", patientId);
                ("doctorId", doctorId);
                ("appointmentDate", appointmentDate);
                ("appointmentTime", appointmentTime);
                ("appointmentType", appointmentType);
                ("notes", notes);
                ("status", Some (VStr "scheduled"));
                ("createdAt", Some (VStr createdNow));
                ("updatedAt", Some (VStr updatedNow))] in
      match PutCommand "appointmentId" (Appointments w) appointment with
      | Some tbl => (Success 201 appointment, withAppointments w tbl)
      | None => (Failure 500 "Error creating appointment", w)
      end.

(** One round of [Object.keys(updates).forEach]: the key contributes
    [, #key = :key] to the expression and its two placeholders, unless it is
    [appointmentId] or [createdAt]. *)
Definition addKey (acc : Update) (kv : string * value) : Update :=
  let key := kv.1 in
  if negb (String.eqb key "appointmentId") && negb (String.eqb key "createdAt")
  then
    {| UpdateExpression :=
         (UpdateExpression acc ++ [(String "#" key, String ":" key)])%list;
       ExpressionAttributeNames :=
         <[String "#" key := key]> (ExpressionAttributeNames acc);
       ExpressionAttributeValues :=
         <[String ":" key := kv.2]> (ExpressionAttributeValues acc) |}
  else acc.

(** The update request of [updateAppointment].  The keys of [updates] are
    visited in the order in which the map lists them. *)
Definition buildUpdate (now : string) (updates : item) : Update :=
  foldl addKey
    {| UpdateExpression := [("updatedAt", ":updatedAt")];
       ExpressionAttributeNames := ∅;
       ExpressionAttributeValues := {[":updatedAt" := VStr now]} |}
    (map_to_list updates).

(** [updateAppointment]: [now] is the reading of the clock. *)
Definition updateAppointment (now : string) (id : string) (updates : item)
    (w : World) : response item * World :=
  match GetCommand "appointmentId" (Appointments w) id with
  | None => (Failure 404 "Appointment not found", w)
  | Some existing =>
      let checked :=
        truthy (updates !! "appointmentDate")
        || truthy (updates !! "appointmentTime") in
      let doctorId := jsOr (updates !! "doctorId") (existing !! "doctorId") in
      let appointmentDate :=
        jsOr (updates !! "appointmentDate") (existing !! "appointmentDate") in
      let appointmentTime :=
        jsOr (updates !! "appointmentTime") (existing !! "appointmentTime") in
      if checked
         && negb (validQuery (updateConflictCommand doctorId appointmentDate
                                appointmentTime id))
      then (Failure 500 "Error updating appointment", w)
      else
        let booked :=
          if checked
          then hasConflict (Appointments w) doctorId appointmentDate
                 appointmentTime (Some id)
          else false in
        if booked then (Failure 409 "Time slot is already booked", w)
        else
          match UpdateCommand "appointmentId" (Appointments w) id
                  (buildUpdate now updates) with
          | Some (tbl, attributes) =>
              (Success 200 attributes, withAppointments w tbl)
          | None => (Failure 500 "Error updating appointment", w)
          end
  end.

(** [cancellationReason || 'No reason provided'] *)
Definition orDefault (a : option value) (d : value) : value :=
  match a with
  | Some v => if truthy a then v else d
  | None => d
  end.

(** The update request of [cancelAppointment]. *)
Definition cancelUpdate (now : string) (cancellationReason : option value)
    : Update :=
  {| UpdateExpression :=
       [("#status", ":status"); ("cancellationReason", ":reason");
        ("updatedAt", ":updatedAt")];
     ExpressionAttributeNames := {["#status" := "status"]};
     ExpressionAttributeValues :=
       <[":status" := VStr "cancelled"]>
         (<[":reason" :=
              orDefault cancellationReason (VStr "No reason provided")]>
            {[":updatedAt" := VStr now]}) |}.

(** [cancelAppointment] *)
Definition cancelAppointment (now : string) (id : string) (body : item)
    (w : World) : response item * World :=
  let cancellationReason := body !! "cancellationReason" in
  match UpdateCommand "appointmentId" (Appointments w) id
          (cancelUpdate now cancellationReason) with
  | Some (tbl, attributes) => (Success 200 attributes, withAppointments w tbl)
  | None => (Failure 500 "Error cancelling appointment", w)
  end.

(** [getDoctorAppointments] *)
Definition getDoctorAppointments (doctorId : string)
    (date status : option value) (w : World) : response (list item) :=
  let keyCondition :=
    if truthy date
    then CAnd (CEq "doctorId" (Some (VStr doctorId)))
              (CEq "appointmentDate" date)
    else CEq "doctorId" (Some (VStr doctorId)) in
  let filterExpression :=
    if truthy status then CEq "appointmentStatus" status else CTrue in
  Success 200
    (QueryCommand "appointmentId" (Appointments w)
       {| KeyConditionExpression := keyCondition;
          FilterExpression := filterExpression |}).

(** ** Dates *)

(** The [Date] objects of [getAvailableSlots], read as the language
    specification defines them.  A time value is a number of milliseconds
    since the epoch; the time value of an invalid date is [NaN], here
    [None]. *)
Definition msPerSecond : Z := 1000.
Definition msPerMinute : Z := 60000.
Definition msPerHour : Z := 3600000.
Definition msPerDay : Z := 86400000.

Definition Day (t : Z) : Z := (t / msPerDay)%Z.
Definition HourFromTime (t : Z) : Z := ((t / msPerHour) mod 24)%Z.
Definition MinFromTime (t : Z) : Z := ((t / msPerMinute) mod 60)%Z.
Definition SecFromTime (t : Z) : Z := ((t / msPerSecond) mod 60)%Z.
Definition msFromTime (t : Z) : Z := (t mod msPerSecond)%Z.

Definition MakeTime (hour min sec ms : Z) : Z :=
  (hour * msPerHour + min * msPerMinute + sec * msPerSecond + ms)%Z.

Definition MakeDate (day time : Z) : Z := (day * msPerDay + time)%Z.

Definition TimeClip (time : Z) : option Z :=
  if (Z.abs time <=? 8640000000000000)%Z then Some time else None.

(** What the slot computation takes from the runtime it runs on: the parser
    of date-time strings, the offset of the local time zone, and the
    formatter of the time of day.  All three depend on the engine, on its
    locale data and on the time zone of the server, so they are inputs of the
    handler. *)
Record Runtime : Type := {
  (** [Date.parse]: the time value of a date-time string. *)
  dateParse : string → option Z;
  (** [LocalTZA(t, isUTC)]: the offset of local time from UTC, in
      milliseconds, at the UTC time value [t] when [isUTC] is true and at
      the local time value [t] otherwise. *)
  LocalTZA : Z → bool → Z;
  (** [toLocaleTimeString('en-US', {hour12: false, hour: '2-digit', minute:
      '2-digit'})] of the date with time value [t]. *)
  toLocaleTimeString : Z → string
}.

Definition LocalTime (rt : Runtime) (t : Z) : Z :=
  (t + LocalTZA rt t true)%Z.

Definition UTC (rt : Runtime) (t : Z) : Z :=
  (t - LocalTZA rt t false)%Z.

(** [new Date(s)] for a string [s] *)
Definition newDate (rt : Runtime) (s : string) : option Z :=
  dateParse rt s ≫= TimeClip.

(** [getMinutes()] of a valid date *)
Definition getMinutes (rt : Runtime) (t : Z) : Z :=
  MinFromTime (LocalTime rt t).

(** [setMinutes(min)] on a valid date: the new time value *)
Definition setMinutes (rt : Runtime) (t : Z) (min : Z) : option Z :=
  let t' := LocalTime rt t in
  let date :=
    MakeDate (Day t')
      (MakeTime (HourFromTime t') min (SecFromTime t') (msFromTime t')) in
  TimeClip (UTC rt date).

(** ** Available slots *)

(** [bookedSlots.includes(timeSlot)] *)
Definition includes (bookedSlots : list (option value)) (timeSlot : string)
    : bool :=
  bool_decide (Some (VStr timeSlot) ∈ bookedSlots).

(** The [while (startTime < endTime)] loop.  A comparison with an invalid
    date is false.  [fuel] bounds the number of rounds; [None] means that
    the loop has not finished within that bound. *)
Fixpoint slotLoop (rt : Runtime) (fuel : nat) (startTime endTime : option Z)
    (slotDuration : Z) (bookedSlots : list (option value))
    (availableSlots : list string) : option (list string) :=
  match fuel with
  | O => None
  | S fuel' =>
      match startTime, endTime with
      | Some t, Some e =>
          if (t <? e)%Z then
            let timeSlot := toLocaleTimeString rt t in
            let availableSlots' :=
              if negb (includes bookedSlots timeSlot)
              then (availableSlots ++ [timeSlot])%list
              else availableSlots in
            slotLoop rt fuel'
              (setMinutes rt t (getMinutes rt t + slotDuration)%Z) endTime
              slotDuration bookedSlots availableSlots'
          else Some availableSlots
      | _, _ => Some availableSlots
      end
  end.

(** [doctorData.Item.slotDuration || 30] *)
Definition effectiveDuration (d : option number) : Z :=
  match d with
  | Some n => if (numberValue n =? 0)%Z then 30%Z else numberValue n
  | None => 30%Z
  end.

(** Lines 398 to 419 of [getAvailableSlots]: from the working hours, the
    slot duration and the booked times to the available slots. *)
Definition computeAvailableSlots (rt : Runtime) (fuel : nat)
    (wh : WorkingHours) (slotDuration : Z)
    (bookedSlots : list (option value)) (date : string)
    : option (list string) :=
  let startTime := newDate rt (date +:+ "T" +:+ start wh) in
  let endTime := newDate rt (date +:+ "T" +:+ end_ wh) in
  slotLoop rt fuel startTime endTime slotDuration bookedSlots [].

Record SlotsData : Type := {
  slotsDate : string;
  availableSlots : list string;
  slotsDuration : Z
}.

(** The query of [getAvailableSlots] for the existing appointments. *)
Definition appointmentsCommand (doctorId date : string) : Query :=
  {| KeyConditionExpression :=
       CAnd (CEq "doctorId" (Some (VStr doctorId)))
            (CEq "appointmentDate" (Some (VStr date)));
     FilterExpression := CTrue |}.

(** [getAvailableSlots].  The query string parameter [date] is a string or
    absent. *)
Definition getAvailableSlots (rt : Runtime) (fuel : nat) (doctorId : string)
    (date : option string) (w : World) : option (response SlotsData) :=
  match date with
  | None | Some EmptyString => Some (Failure 400 "Date is required")
  | Some date =>
      match Doctors w !! doctorId with
      | None => Some (Failure 404 "Doctor not found")
      | Some doctorData =>
          let appointments :=
            QueryCommand "appointmentId" (Appointments w)
              (appointmentsCommand doctorId date) in
          match workingHours doctorData with
          | None => Some (Failure 500 "Error fetching available slots")
          | Some wh =>
              let slotDuration :=
                effectiveDuration (slotDuration doctorData) in
              let bookedSlots :=
                (λ apt : item, apt !! "appointmentTime") <$> appointments in
              match computeAvailableSlots rt fuel wh slotDuration bookedSlots
                      date with
              | None => None
              | Some slots =>
                  Some (Success 200
                          {| slotsDate := date; availableSlots := slots;
                             slotsDuration := slotDuration |})
              end
          end
      end
  end.

(** ** Doctor schedule *)

(** The property key under which an appointment is filed:
    [appointment.appointmentDate] converted to a property key. *)
Definition dateKey (appointment : item) : string :=
  match appointment !! "appointmentDate" with
  | Some (VStr s) => s
  | Some VNull => "null"
  | None => "undefined"
  end.

(** One round of [data.Items.forEach]. *)
Definition fileAppointment (schedule : gmap string (list item))
    (appointment : item) : gmap string (list item) :=
  let key := dateKey appointment in
  let schedule' :=
    match schedule !! key with
    | None => <[key := []]> schedule
    | Some _ => schedule
    end in
  alter (λ l, (l ++ [appointment])%list) key schedule'.

Record ScheduleData : Type := {
  scheduleWorkingHours : option WorkingHours;
  scheduleSlotDuration : option number;
  appointments : gmap string (list item)
}.

(** The range query of [getDoctorSchedule]. *)
Definition scheduleCommand (id : string) (startDate endDate : option value)
    : Query :=
  {| KeyConditionExpression :=
       CAnd (CEq "doctorId" (Some (VStr id)))
            (CBetween "appointmentDate" startDate endDate);
     FilterExpression := CTrue |}.

(** [getDoctorSchedule] *)
Definition getDoctorSchedule (id : string) (startDate endDate : option value)
    (w : World) : response ScheduleData :=
  if negb (truthy startDate) || negb (truthy endDate)
  then Failure 400 "Start date and end date are required"
  else
    let command := scheduleCommand id startDate endDate in
    if validQuery command then
      let data := QueryCommand "appointmentId" (Appointments w) command in
      match Doctors w !! id with
      | None => Failure 404 "Doctor not found"
      | Some doctorData =>
          let schedule := foldl fileAppointment ∅ data in
          Success 200
            {| scheduleWorkingHours := workingHours doctorData;
               scheduleSlotDuration := slotDuration doctorData;
               appointments := schedule |}
      end
    else Failure 500 "Error fetching doctor schedule".

(** ** Sample data *)

Definition sampleBody : item :=
  object [("patientId", Some (VStr "p-1")); ("doctorId", Some (VStr "d-1"));
          ("appointmentDate", Some (VStr "2024-01-15"));
          ("appointmentTime", Some (VStr "10:00"))].

Definition emptyWorld : World :=
  {| Appointments := ∅; Doctors := ∅ |}.

Definition nineToFive : WorkingHours :=
  {| start := "09:00"; end_ := "17:00" |}.

Definition clinic : World :=
  {| Appointments := ∅;
     Doctors := {["d-1" := {| workingHours := Some nineToFive;
                              slotDuration := Some (Number 30 I) |}]} |}.

(** Two appointments of the sample clinic: [a-1] with doctor [d-1] and [a-2]
    with doctor [d-2], both on 2024-01-15 at 10:00. *)
Definition otherBody : item :=
  object [("patientId", Some (VStr "p-2")); ("doctorId", Some (VStr "d-2"));
          ("appointmentDate", Some (VStr "2024-01-15"));
          ("appointmentTime", Some (VStr "10:00"))].

Definition booked1 : World :=
  (createAppointment "a-1" "t0" "t0" sampleBody clinic).2.

Definition booked2 : World :=
  (createAppointment "a-2" "t1" "t1" otherBody booked1).2.

(** The record of [a-1]. *)
Definition a1Record : item :=
  object [("appointmentId", Some (VStr "a-1"));
          ("patientId", Some (VStr "p-1")); ("doctorId", Some (VStr "d-1"));
          ("appointmentDate", Some (VStr "2024-01-15"));
          ("appointmentTime", Some (VStr "10:00"));
          ("status", Some (VStr "scheduled"));
          ("createdAt", Some (VStr "t0")); ("updatedAt", Some (VStr "t0"))].

(** A payload that repeats the date and the time of [a-1]. *)
Definition sameSlot : item :=
  object [("appointmentDate", Some (VStr "2024-01-15"));
          ("appointmentTime", Some (VStr "10:00"))].

(** The sample clinic after [a-1] was booked and then cancelled. *)
Definition cancelled1 : World :=
  (cancelAppointment "t2" "a-1" ∅ booked1).2.

(** *** Sample runtimes *)

(** Decimal digits. *)
Definition digitVal (c : ascii) : option Z :=
  let n := Z.of_nat (nat_of_ascii c) in
  if (48 <=? n)%Z && (n <=? 57)%Z then Some (n - 48)%Z else None.

Definition twoDigitVal (a b : ascii) : option Z :=
  match digitVal a, digitVal b with
  | Some x, Some y => Some (10 * x + y)%Z
  | _, _ => None
  end.

Definition digitChar (d : Z) : ascii :=
  ascii_of_nat (48 + Z.to_nat d).

Definition twoDigits (n : Z) : string :=
  String (digitChar (n / 10)) (String (digitChar (n mod 10)) EmptyString).

(** The label [HH:MM] of the minute [m] of a day. *)
Definition hhmm (m : Z) : string :=
  twoDigits (m / 60) +:+ ":" +:+ twoDigits (m mod 60).

(** The day number, counted from the epoch, of the day [d] of the month [m]
    of the year [y] of the proleptic Gregorian calendar. *)
Definition daysFromCivil (y m d : Z) : Z :=
  let y' := if (m <=? 2)%Z then (y - 1)%Z else y in
  let era := (y' / 400)%Z in
  let yoe := (y' - era * 400)%Z in
  let mp := ((m + 9) mod 12)%Z in
  let doy := ((153 * mp + 2) / 5 + d - 1)%Z in
  let doe := (yoe * 365 + yoe / 4 - yoe / 100 + doy)%Z in
  (era * 146097 + doe - 719468)%Z.

(** The local time value written as [YYYY-MM-DDTHH:MM], the format of the
    strings that [getAvailableSlots] builds from a date [YYYY-MM-DD] and
    working hours [HH:MM].  A day of the month up to 31 is counted on from
    the first of the month, and 24:00 is the midnight that ends the day.
    The sample runtimes read no other format. *)
Definition readLocal (s : string) : option Z :=
  match s with
  | String y1 (String y2 (String y3 (String y4 (String "-"
      (String m1 (String m2 (String "-"
        (String d1 (String d2 (String "T"
          (String h1 (String h2 (String ":"
            (String n1 (String n2 EmptyString))))))))))))))) =>
      match twoDigitVal y1 y2, twoDigitVal y3 y4, twoDigitVal m1 m2,
            twoDigitVal d1 d2, twoDigitVal h1 h2, twoDigitVal n1 n2 with
      | Some yh, Some yl, Some m, Some d, Some h, Some n =>
          if (1 <=? m)%Z && (m <=? 12)%Z && (1 <=? d)%Z && (d <=? 31)%Z
             && (n <=? 59)%Z && ((h <=? 23)%Z || (h =? 24)%Z && (n =? 0)%Z)
          then Some (MakeDate (daysFromCivil (100 * yh + yl) m d)
                              (MakeTime h n 0 0))
          else None
      | _, _, _, _, _, _ => None
      end
  | _ => None
  end.

(** A server whose time zone has the offset [before] up to the instant
    [transition] and the offset [after] from then on.  A local time that
    the transition skips or repeats is read with the offset before the
    transition.  The parser reads the strings of [readLocal] as local
    times, and the formatter labels a time value with its local hour and
    minute. *)
Definition zone (transition before after : Z) : Runtime :=
  let offsetOfLocal (t : Z) : Z :=
    if (t <? transition + Z.max before after)%Z then before else after in
  let offsetOfUTC (t : Z) : Z :=
    if (t <? transition)%Z then before else after in
  {| dateParse := λ s, (λ t, t - offsetOfLocal t)%Z <$> readLocal s;
     LocalTZA := λ t isUTC, if isUTC then offsetOfUTC t else offsetOfLocal t;
     toLocaleTimeString := λ t,
       let t' := (t + offsetOfUTC t)%Z in
       twoDigits (HourFromTime t') +:+ ":" +:+ twoDigits (MinFromTime t') |}.

(** A server on UTC. *)
Definition utc : Runtime := zone 0 0 0.

(** A server on the time of New York around 10 March 2024, the day on which
    local time goes from 02:00 (UTC-5) to 03:00 (UTC-4) at 07:00 UTC. *)
Definition newYork : Runtime :=
  zone 1710054000000 (-18000000) (-14400000).

(** ** Predicates of the statements *)

(** An appointment stored under [id] that holds the slot
    (doctor, date, time), whatever its other attributes are. *)
Definition holdsSlot (tbl : gmap string item) (id : string)
    (d dt : string) (tm : value) : Prop :=
  ∃ it, tbl !! id = Some it
        ∧ it !! "doctorId" = Some (VStr d)
        ∧ it !! "appointmentDate" = Some (VStr dt)
        ∧ it !! "appointmentTime" = Some tm.

(** The conflict of the specification, in its words: an appointment with
    status [scheduled] for the same doctor and date holds the time and is not
    the excluded one. *)
Definition activeConflict (tbl : gmap string item) (d dt : string)
    (tm : value) (ex : option string) : Prop :=
  ∃ id it, tbl !! id = Some it
           ∧ it !! "status" = Some (VStr "scheduled")
           ∧ Some id ≠ ex
           ∧ it !! "doctorId" = Some (VStr d)
           ∧ it !! "appointmentDate" = Some (VStr dt)
           ∧ it !! "appointmentTime" = Some tm.

(** Some appointment of the store, whatever its status, is for the doctor
    and the date and has the time [ts]. *)
Definition bookedAt (tbl : gmap string item) (doctorId date ts : string)
    : Prop :=
  ∃ id it, tbl !! id = Some it
           ∧ it !! "doctorId" = Some (VStr doctorId)
           ∧ it !! "appointmentDate" = Some (VStr date)
           ∧ it !! "appointmentTime" = Some (VStr ts).

(** The candidate times [s], [s + d], [s + 2 d], ..., [n] of them. *)
Fixpoint candidateTimes (s d : Z) (n : nat) : list Z :=
  match n with
  | O => []
  | S n' => s :: candidateTimes (s + d) d n'
  end.

(** The number of candidates below [e]: the quotient of [e - s] by [d],
    rounded up. *)
Definition slotCount (s e d : Z) : nat :=
  Z.to_nat ((e - s + d - 1) / d).

(** Strictly ascending in the order of strings, which on [HH:MM] values is
    the order of the times. *)
Fixpoint ascending (l : list string) : bool :=
  match l with
  | [] => true
  | x :: r =>
      match r with
      | [] => true
      | y :: _ => String.ltb x y && ascending r
      end
  end.

(** The booking of the specification, in its words: an appointment of the
    doctor on the date with status [scheduled] has the time [ts]. *)
Definition activeBookedAt (tbl : gmap string item)
    (doctorId date ts : string) : Prop :=
  ∃ id it, tbl !! id = Some it
           ∧ it !! "status" = Some (VStr "scheduled")
           ∧ it !! "doctorId" = Some (VStr doctorId)
           ∧ it !! "appointmentDate" = Some (VStr date)
           ∧ it !! "appointmentTime" = Some (VStr ts).

(** An appointment other than [exclude] holds the slot
    (doctorId, date, time). *)
Definition collidesWith (tbl : gmap string item) (exclude : string)
    (doctorId date time : option value) : Prop :=
  ∃ id d dt tm,
    id ≠ exclude
    ∧ doctorId = Some (VStr d) ∧ date = Some (VStr dt) ∧ time = Some tm
    ∧ holdsSlot tbl id d dt tm.

(** The sample request that moves an appointment to doctor [d-2]. *)
Definition toOtherDoctor : item :=
  object [("doctorId", Some (VStr "d-2"))].

(** The entries of a payload that Update writes: all but [appointmentId]
    and [createdAt]. *)
Definition mutableEntries (updates : item) : list (string * value) :=
  filter (λ kv, kv.1 ≠ "appointmentId" ∧ kv.1 ≠ "createdAt")
         (map_to_list updates).

(** A payload with a note, which also tries to set the identifier and the
    creation time. *)
Definition notePatch : item :=
  object [("notes", Some (VStr "bring x-rays"));
          ("appointmentId", Some (VStr "a-7"));
          ("createdAt", Some (VStr "t9"))].

(** The records the engine writes: the record Create stores under the
    generated identifier, and the record Cancel stores under the identifier
    it is called with, when the record that was there (if any) was written by
    the engine. *)
Inductive engineWritten : item → Prop :=
| written_create (uuid createdNow updatedNow : string) (body : item)
    (w : World) (it : item) :
    statusOf (createAppointment uuid createdNow updatedNow body w).1 = 201%Z →
    Appointments (createAppointment uuid createdNow updatedNow body w).2
      !! uuid = Some it →
    engineWritten it
| written_cancel (now id : string) (body : item) (w : World) (it : item) :
    (∀ old, Appointments w !! id = Some old → engineWritten old) →
    Appointments (cancelAppointment now id body w).2 !! id = Some it →
    engineWritten it.

(** The payload of a success answer. *)
Definition dataOf {A} (r : response A) : option A :=
  match r with
  | Success _ data => Some data
  | Failure _ _ => None
  end.

(** No two appointments of the store, whatever their status, hold the same
    doctor, date and time. *)
Definition noDoubleBooking (tbl : gmap string item) : Prop :=
  ∀ id1 id2 d dt tm,
    holdsSlot tbl id1 d dt tm → holdsSlot tbl id2 d dt tm → id1 = id2.

(** From the time value [a] to the time value [b] the offset of local time
    does not change: it is the same at every instant of the interval, and
    the local times of the interval are read with it. *)
Definition steady (rt : Runtime) (a b : Z) : Prop :=
  ∃ offset, ∀ t, (a ≤ t ≤ b)%Z →
    LocalTZA rt t true = offset ∧ LocalTZA rt (t + offset)%Z false = offset.

(** From the time value [t], which is the minute [m] of its local day, the
    formatter labels the following [span] minutes by the wall clock. *)
Definition wallClock (rt : Runtime) (t m span : Z) : Prop :=
  ∀ k, (0 ≤ k < span)%Z →
    toLocaleTimeString rt (t + k * msPerMinute)%Z = hhmm (m + k).

(** The number of rounds of the loop of [getAvailableSlots] for a slot
    duration of [d] minutes when the offset of local time does not change. *)
Definition rounds (rt : Runtime) (wh : WorkingHours) (date : string)
    (d : Z) : nat :=
  match newDate rt (date +:+ "T" +:+ start wh),
        newDate rt (date +:+ "T" +:+ end_ wh) with
  | Some s, Some e => slotCount s e (d * msPerMinute)
  | _, _ => O
  end.

(** Working hours of a night shift. *)
Definition nightShift : WorkingHours :=
  {| start := "22:00"; end_ := "06:00" |}.

(** ** Doctor statistics *)

(** A JavaScript number that counts: an integer, or [NaN]. *)
Inductive num : Type :=
| NaN
| Num (n : Z).

#[global] Instance num_eq_dec : EqDecision num.
Proof. solve_decision. Defined.

(** [x++] on a number; [NaN] stays [NaN]. *)
Definition incr (x : num) : num :=
  match x with
  | Num n => Num (n + 1)
  | NaN => NaN
  end.

(** [toLowerCase] on the letters A to Z. *)
Definition lowerChar (c : ascii) : ascii :=
  let n := nat_of_ascii c in
  if (65 <=? n)%nat && (n <=? 90)%nat then ascii_of_nat (n + 32) else c.

Fixpoint toLowerCase (s : string) : string :=
  match s with
  | EmptyString => EmptyString
  | String c r => String (lowerChar c) (toLowerCase r)
  end.

(** The names every object inherits from [Object.prototype]. *)
Definition objectPrototypeNames : list string :=
  ["constructor"; "__defineGetter__"; "__defineSetter__"; "hasOwnProperty";
   "__lookupGetter__"; "__lookupSetter__"; "isPrototypeOf";
   "propertyIsEnumerable"; "toString"; "valueOf"; "__proto__";
   "toLocaleString"].

(** [stats[key]++] on the counters of the statistics object, which start as
    [completed], [cancelled] and [pending].  A counter that is there is
    incremented; for any other key the old value is not a number and the
    object gets the property with value [NaN].  An assignment of a number to
    [__proto__] is ignored.  The other two properties of the object,
    [totalAppointments] and [byType], have a capital letter and are never the
    result of [toLowerCase]. *)
Definition countStatus (counters : gmap string num) (key : string)
    : gmap string num :=
  if String.eqb key "__proto__" then counters
  else
    match counters !! key with
    | Some x => <[key := incr x]> counters
    | None => <[key := NaN]> counters
    end.

(** [if (!byType[k]) byType[k] = 0; byType[k]++].  An inherited member is
    truthy and is not reset. *)
Definition countType (byType : gmap string num) (k : string)
    : gmap string num :=
  let falsy :=
    match byType !! k with
    | Some (Num n) => (n =? 0)%Z
    | Some NaN => true
    | None => negb (bool_decide (k ∈ objectPrototypeNames))
    end in
  let byType' := if falsy then <[k := Num 0]> byType else byType in
  if String.eqb k "__proto__" then byType'
  else
    match byType' !! k with
    | Some x => <[k := incr x]> byType'
    | None => <[k := NaN]> byType'
    end.

(** [apt.appointmentType] as a property key. *)
Definition typeKey (apt : item) : string :=
  match apt !! "appointmentType" with
  | Some (VStr s) => s
  | Some VNull => "null"
  | None => "undefined"
  end.

(** One round of [appointments.Items.forEach] of [getDoctorStats];
    [apt.status.toLowerCase()] throws unless the status is a string, and
    [None] is the thrown error. *)
Definition countAppointment
    (acc : option (gmap string num * gmap string num)) (apt : item)
    : option (gmap string num * gmap string num) :=
  match acc with
  | None => None
  | Some (counters, byType) =>
      match apt !! "status" with
      | Some (VStr s) =>
          Some (countStatus counters (toLowerCase s),
                countType byType (typeKey apt))
      | _ => None
      end
  end.

Record Stats : Type := {
  totalAppointments : nat;
  counters : gmap string num;
  byType : gmap string num
}.

(** The range query of [getDoctorStats]. *)
Definition statsCommand (id : string) (startDate endDate : option value)
    : Query :=
  {| KeyConditionExpression :=
       CAnd (CEq "doctorId" (Some (VStr id)))
            (CBetween "appointmentDate" startDate endDate);
     FilterExpression := CTrue |}.

(** [getDoctorStats]: [today1] and [today2] are the two readings of
    [new Date().toISOString().split('T')[0]]. *)
Definition getDoctorStats (today1 today2 : string) (id : string)
    (startDate endDate : option value) (w : World) : response Stats :=
  let appointmentsCommand :=
    statsCommand id (jsOr startDate (Some (VStr today1)))
                    (jsOr endDate (Some (VStr today2))) in
  if validQuery appointmentsCommand then
    let appointments :=
      QueryCommand "appointmentId" (Appointments w) appointmentsCommand in
    match foldl countAppointment
            (Some ({["completed" := Num 0; "cancelled" := Num 0;
                     "pending" := Num 0]}, ∅))
            appointments with
    | Some (counters, byType) =>
        Success 200 {| totalAppointments := length appointments;
                       counters := counters; byType := byType |}
    | None => Failure 500 "Error fetching doctor statistics"
    end
  else Failure 500 "Error fetching doctor statistics".

(** * Properties *)

(** Closed decidable facts are settled by evaluating their decision
    procedure. *)
Ltac by_compute := apply (bool_decide_unpack _); vm_compute; exact I.

(** ** The store *)

Lemma elem_of_scan (k : string) (tbl : gmap string item) (it : item) :
  it ∈ scan k tbl ↔
  ∃ id stored, tbl !! id = Some stored ∧ it = keyed k id stored.
Proof.
  unfold scan. rewrite list_elem_of_fmap. split.
  - intros [[id stored] [-> Hin]]. apply elem_of_map_to_list in Hin. eauto.
  - intros (id & stored & Hl & ->). exists (id, stored). split; [done|].
    by apply elem_of_map_to_list.
Qed.

Lemma elem_of_QueryCommand (k : string) (tbl : gmap string item) (q : Query)
    (it : item) :
  it ∈ QueryCommand k tbl q ↔
  selects q it = true ∧
  ∃ id stored, tbl !! id = Some stored ∧ it = keyed k id stored.
Proof.
  unfold QueryCommand.
  rewrite merge_sort_Permutation, list_elem_of_filter, elem_of_scan.
  rewrite Is_true_true. reflexivity.
Qed.

Lemma length_pos_elem {A} (l : list A) :
  (0 <? length l)%nat = true ↔ ∃ x, x ∈ l.
Proof.
  destruct l as [|x l]; simpl.
  - split; [discriminate|]. intros [x Hx]. by apply not_elem_of_nil in Hx.
  - split; [|done]. intros _. exists x. by left.
Qed.

Lemma keyed_lookup_ne (k id a : string) (it : item) :
  a ≠ k → keyed k id it !! a = it !! a.
Proof. intros H. unfold keyed. by rewrite lookup_insert_ne. Qed.

Lemma keyed_lookup_key (k id : string) (it : item) :
  keyed k id it !! k = Some (VStr id).
Proof. unfold keyed. by rewrite lookup_insert_eq. Qed.

(** ** The conflict check *)

Lemma selects_conflict (q : Query) (kc fc : cond) (id : string) (it : item) :
  q = {| KeyConditionExpression := kc; FilterExpression := fc |} →
  selects q (keyed "appointmentId" id it) = true ↔
  (isStr (it !! "doctorId") = true ∧ isStr (it !! "appointmentDate") = true)
  ∧ evalCond kc (keyed "appointmentId" id it) = true
  ∧ evalCond fc (keyed "appointmentId" id it) = true.
Proof.
  intros ->. unfold selects, inDoctorScheduleIndex. simpl.
  rewrite !keyed_lookup_ne by done.
  rewrite !andb_true_iff. tauto.
Qed.

Lemma evalCond_CEq (a : string) (v : option value) (it : item) :
  evalCond (CEq a v) it = true ↔ is_Some v ∧ it !! a = v.
Proof.
  simpl. destruct v as [x|].
  - rewrite bool_decide_eq_true. split; [by eauto|tauto].
  - split; [discriminate|]. intros [[x Hx] _]. discriminate.
Qed.

Lemma evalCond_CNe (a : string) (v : option value) (it : item) :
  evalCond (CNe a v) it = true ↔ it !! a ≠ v.
Proof. simpl. by rewrite bool_decide_eq_true. Qed.

Lemma evalCond_CAnd (c1 c2 : cond) (it : item) :
  evalCond (CAnd c1 c2) it = true ↔
  evalCond c1 it = true ∧ evalCond c2 it = true.
Proof. simpl. by rewrite andb_true_iff. Qed.

Lemma isStr_true (v : option value) :
  isStr v = true ↔ ∃ s, v = Some (VStr s).
Proof.
  destruct v as [[|s]|]; simpl; split; try discriminate; eauto;
    intros [s' Hs]; discriminate.
Qed.

(** The items selected by either conflict query. *)
Lemma selects_conflict_iff (doctorId date time : option value)
    (ex : option string) (id : string) (it : item) :
  selects
    match ex with
    | None => createConflictCommand doctorId date time
    | Some cur => updateConflictCommand doctorId date time cur
    end (keyed "appointmentId" id it) = true ↔
  ∃ d dt tm,
    doctorId = Some (VStr d) ∧ date = Some (VStr dt) ∧ time = Some tm
    ∧ Some id ≠ ex
    ∧ it !! "doctorId" = Some (VStr d)
    ∧ it !! "appointmentDate" = Some (VStr dt)
    ∧ it !! "appointmentTime" = Some tm.
Proof.
  destruct ex as [cur|];
    (rewrite selects_conflict by reflexivity);
    rewrite !evalCond_CAnd, !evalCond_CEq, ?evalCond_CNe, !isStr_true;
    rewrite !keyed_lookup_ne by done; rewrite ?keyed_lookup_key.
  - split.
    + intros ([[d Hd] [dt Hdt]] & [[_ Hd'] [_ Hdt']] & [[tm Htm] Htm'] & Hne).
      exists d, dt, tm. subst time. rewrite <- Hd', <- Hdt'.
      repeat split; try done. congruence.
    + intros (d & dt & tm & -> & -> & -> & Hne & Hd & Hdt & Htm).
      rewrite Hd, Hdt, Htm. repeat split; eauto. congruence.
  - split.
    + intros ([[d Hd] [dt Hdt]] & [[_ Hd'] [_ Hdt']] & [[tm Htm] Htm']).
      exists d, dt, tm. subst time. rewrite <- Hd', <- Hdt'.
      repeat split; done.
    + intros (d & dt & tm & -> & -> & -> & Hne & Hd & Hdt & Htm).
      rewrite Hd, Hdt, Htm. repeat split; eauto.
Qed.

Lemma hasConflict_spec (tbl : gmap string item)
    (doctorId date time : option value) (ex : option string) :
  hasConflict tbl doctorId date time ex = true ↔
  ∃ id d dt tm,
    doctorId = Some (VStr d) ∧ date = Some (VStr dt) ∧ time = Some tm
    ∧ Some id ≠ ex ∧ holdsSlot tbl id d dt tm.
Proof.
  unfold hasConflict, holdsSlot. rewrite length_pos_elem. split.
  - intros [x Hx]. apply elem_of_QueryCommand in Hx
      as [Hsel (id & it & Hl & ->)].
    apply selects_conflict_iff in Hsel
      as (d & dt & tm & ? & ? & ? & ? & ? & ? & ?).
    exists id, d, dt, tm. repeat split; try done. by exists it.
  - intros (id & d & dt & tm & ? & ? & ? & ? & it & Hl & ? & ? & ?).
    exists (keyed "appointmentId" id it). apply elem_of_QueryCommand.
    split; [|by eauto].
    apply selects_conflict_iff. by exists d, dt, tm.
Qed.

Lemma cancelled1_none_scheduled :
  map_Forall (λ _ it, it !! "status" ≠ Some (VStr "scheduled"))
             (Appointments cancelled1).
Proof. by_compute. Qed.

(** C1, counterexample: after [a-1] was cancelled, the conflict check for its
    slot is still positive and Create answers 409, although no appointment of
    the store has status [scheduled]. *)
Lemma cancelled_counts_as_conflict :
  hasConflict (Appointments cancelled1) (Some (VStr "d-1"))
    (Some (VStr "2024-01-15")) (Some (VStr "10:00")) None = true
  ∧ statusOf (createAppointment "a-3" "t3" "t3" sampleBody cancelled1).1
    = 409%Z
  ∧ ¬ activeConflict (Appointments cancelled1) "d-1" "2024-01-15"
        (VStr "10:00") None.
Proof.
  split; [by_compute|]. split; [by_compute|].
  intros (id & it & Hl & Hst & _).
  by apply (cancelled1_none_scheduled id it Hl).
Qed.

(** C1, as the code has it: the conflict check of Create and Update is
    positive iff some appointment of the store, whatever its status
    (cancelled ones included), holds the same doctor, date and time and is
    not the excluded appointment.  Create excludes none. *)
Theorem hasConflict_any_status (tbl : gmap string item) (d dt : string)
    (tm : value) (ex : option string) :
  hasConflict tbl (Some (VStr d)) (Some (VStr dt)) (Some tm) ex = true ↔
  ∃ id it, tbl !! id = Some it
           ∧ Some id ≠ ex
           ∧ it !! "doctorId" = Some (VStr d)
           ∧ it !! "appointmentDate" = Some (VStr dt)
           ∧ it !! "appointmentTime" = Some tm.
Proof.
  rewrite hasConflict_spec. unfold holdsSlot. split.
  - intros (id & d' & dt' & tm' & [= <-] & [= <-] & [= <-] & Hex
            & it & Hl & Hd & Hdt & Htm).
    by exists id, it.
  - intros (id & it & Hl & Hex & Hd & Hdt & Htm).
    exists id, d, dt, tm. repeat split; try done. by exists it.
Qed.

(** ** Create *)

Lemma truthy_Some (v : option value) :
  truthy v = true → ∃ s, v = Some (VStr s) ∧ s ≠ "".
Proof.
  destruct v as [[|s]|]; simpl; try discriminate.
  intros H. exists s. split; [done|]. intros ->. discriminate.
Qed.

(** C9: a Create request without a non-empty [patientId], [doctorId],
    [appointmentDate] or [appointmentTime] is answered with 400 and writes
    nothing.  With all four non-empty and no conflict, the answer is 201 and
    the record carries the generated identifier, status [scheduled], the two
    clock readings and the fields of the request.  The store after the call
    holds that record under the generated identifier, a read of the
    identifier answers it, every other record of the store is as it was, and
    so are the doctors. *)
Theorem createAppointment_validates_and_persists
    (uuid createdNow updatedNow : string) (body : item) (w : World) :
  (truthy (body !! "patientId") && truthy (body !! "doctorId")
   && truthy (body !! "appointmentDate")
   && truthy (body !! "appointmentTime") = false →
   createAppointment uuid createdNow updatedNow body w
   = (Failure 400 "Missing required fields", w))
  ∧ (truthy (body !! "patientId") && truthy (body !! "doctorId")
     && truthy (body !! "appointmentDate")
     && truthy (body !! "appointmentTime") = true →
     hasConflict (Appointments w) (body !! "doctorId")
       (body !! "appointmentDate") (body !! "appointmentTime") None = false →
     ∃ appointment,
       createAppointment uuid createdNow updatedNow body w
       = (Success 201 appointment,
          withAppointments w (<[uuid := appointment]> (Appointments w)))
       ∧ appointment !! "appointmentId" = Some (VStr uuid)
       ∧ appointment !! "status" = Some (VStr "scheduled")
       ∧ appointment !! "createdAt" = Some (VStr createdNow)
       ∧ appointment !! "updatedAt" = Some (VStr updatedNow)
       ∧ appointment !! "patientId" = body !! "patientId"
       ∧ appointment !! "doctorId" = body !! "doctorId"
       ∧ appointment !! "appointmentDate" = body !! "appointmentDate"
       ∧ appointment !! "appointmentTime" = body !! "appointmentTime"
       ∧ appointment !! "appointmentType" = body !! "appointmentType"
       ∧ appointment !! "notes" = body !! "notes"
       ∧ Appointments (createAppointment uuid createdNow updatedNow body w).2
           !! uuid
         = Some appointment
       ∧ getAppointmentById uuid
           (createAppointment uuid createdNow updatedNow body w).2
         = Success 200 appointment
       ∧ (∀ id, id ≠ uuid →
            Appointments
              (createAppointment uuid createdNow updatedNow body w).2 !! id
            = Appointments w !! id)
       ∧ Doctors (createAppointment uuid createdNow updatedNow body w).2
         = Doctors w).
Proof.
  split.
  - unfold createAppointment. intros Hreq.
    destruct (truthy (body !! "patientId")), (truthy (body !! "doctorId")),
      (truthy (body !! "appointmentDate")),
      (truthy (body !! "appointmentTime")); try discriminate; reflexivity.
  - intros Hreq Hfree.
    assert (∃ appointment,
              createAppointment uuid createdNow updatedNow body w
              = (Success 201 appointment,
                 {| Appointments := <[uuid := appointment]> (Appointments w);
                    Doctors := Doctors w |})
              ∧ appointment !! "appointmentId" = Some (VStr uuid)
              ∧ appointment !! "status" = Some (VStr "scheduled")
              ∧ appointment !! "createdAt" = Some (VStr createdNow)
              ∧ appointment !! "updatedAt" = Some (VStr updatedNow)
              ∧ appointment !! "patientId" = body !! "patientId"
              ∧ appointment !! "doctorId" = body !! "doctorId"
              ∧ appointment !! "appointmentDate" = body !! "appointmentDate"
              ∧ appointment !! "appointmentTime" = body !! "appointmentTime"
              ∧ appointment !! "appointmentType" = body !! "appointmentType"
              ∧ appointment !! "notes" = body !! "notes")
      as (appointment & Heq & Hid & Hrest).
    { unfold createAppointment. rewrite Hfree.
      rewrite !andb_true_iff in Hreq. destruct Hreq as [[[Hp Hd] Hdt] Htm].
      rewrite Hp, Hd, Hdt, Htm. simpl.
      apply truthy_Some in Hp as (p & Hp & _).
      apply truthy_Some in Hd as (d & Hd & _).
      apply truthy_Some in Hdt as (dt & Hdt & _).
      apply truthy_Some in Htm as (tm & Htm & _).
      rewrite Hp, Hd, Hdt, Htm.
      destruct (body !! "appointmentType") as [ty|],
        (body !! "notes") as [nt|];
        (eexists; split;
         [unfold PutCommand, object; cbn [foldl fst snd];
          by rewrite !lookup_insert_ne, lookup_insert_eq by done|]);
        unfold object; cbn [foldl fst snd];
        repeat split; by simplify_map_eq. }
    exists appointment. rewrite Heq. cbn [snd Appointments Doctors].
    destruct Hrest as (Hst & Hc & Hu & Hp & Hd & Hdt & Htm & Hty & Hnt).
    do 11 (split; [done|]).
    split; [by rewrite lookup_insert_eq|]. split; [|split].
    + unfold getAppointmentById, GetCommand. cbn [Appointments].
      rewrite lookup_insert_eq. cbn [fmap option_fmap option_map].
      unfold keyed. by rewrite insert_id.
    + intros id Hne. by rewrite lookup_insert_ne.
    + reflexivity.
Qed.

Lemma createAppointment_witness :
  createAppointment "a-1" "t0" "t0" ∅ clinic
  = (Failure 400 "Missing required fields", clinic)
  ∧ ∃ appointment,
      Appointments (createAppointment "a-1" "t0" "t1" sampleBody clinic).2
        !! "a-1"
      = Some appointment
      ∧ appointment !! "status" = Some (VStr "scheduled")
      ∧ getAppointmentById "a-1"
          (createAppointment "a-1" "t0" "t1" sampleBody clinic).2
        = Success 200 appointment.
Proof.
  split.
  - apply (proj1 (createAppointment_validates_and_persists
                    "a-1" "t0" "t0" ∅ clinic)).
    vm_compute. reflexivity.
  - destruct (proj2 (createAppointment_validates_and_persists
                       "a-1" "t0" "t1" sampleBody clinic))
      as (appointment & _ & _ & Hst & _ & _ & _ & _ & _ & _ & _ & _
          & Hstored & Hget & _).
    + vm_compute. reflexivity.
    + vm_compute. reflexivity.
    + exists appointment. split; [exact Hstored|]. split; [exact Hst|].
      exact Hget.
Defined.

(** ** Cancel *)

(** The record Cancel writes over [old]. *)
Lemma cancel_actions (now : string) (reason : option value) :
  mapM (resolveAction (cancelUpdate now reason))
       (UpdateExpression (cancelUpdate now reason))
  = Some [("status", VStr "cancelled");
          ("cancellationReason",
           orDefault reason (VStr "No reason provided"));
          ("updatedAt", VStr now)].
Proof. vm_compute. reflexivity. Qed.

Lemma cancelAppointment_eq (now id : string) (body : item) (w : World) :
  let new :=
    <["updatedAt" := VStr now]>
      (<["cancellationReason" :=
           orDefault (body !! "cancellationReason")
                     (VStr "No reason provided")]>
         (<["status" := VStr "cancelled"]>
            (default ∅ (Appointments w !! id)))) in
  cancelAppointment now id body w
  = (Success 200 (keyed "appointmentId" id new),
     withAppointments w (<[id := new]> (Appointments w))).
Proof.
  unfold cancelAppointment, UpdateCommand. rewrite cancel_actions.
  reflexivity.
Qed.

(** C3, what the code does: Cancel for an identifier that is not in the
    store is answered with 200, and a record with status [cancelled] is
    stored under that identifier. *)
Theorem cancel_missing_creates_record (now id : string) (body : item)
    (w : World) :
  Appointments w !! id = None →
  ∃ new,
    cancelAppointment now id body w
    = (Success 200 (keyed "appointmentId" id new),
       withAppointments w (<[id := new]> (Appointments w)))
    ∧ new !! "status" = Some (VStr "cancelled")
    ∧ Appointments (cancelAppointment now id body w).2 !! id = Some new.
Proof.
  intros Hnone. rewrite cancelAppointment_eq. cbv zeta. rewrite Hnone.
  eexists. split; [reflexivity|]. split.
  - by rewrite !lookup_insert_ne, lookup_insert_eq by done.
  - simpl. by rewrite lookup_insert_eq.
Qed.

Lemma cancel_missing_witness :
  Appointments clinic !! "a-9" = None
  ∧ statusOf (cancelAppointment "t0" "a-9" ∅ clinic).1 = 200%Z
  ∧ is_Some (Appointments (cancelAppointment "t0" "a-9" ∅ clinic).2
             !! "a-9").
Proof.
  assert (H : Appointments clinic !! "a-9" = None) by reflexivity.
  destruct (cancel_missing_creates_record "t0" "a-9" ∅ clinic H)
    as (new & Heq & _ & Hl).
  split; [exact H|]. split.
  - rewrite Heq. reflexivity.
  - rewrite Hl. by exists new.
Defined.

(** ** Dates *)

(** [setMinutes(getMinutes() + d)] moves the local time by [d] minutes. *)
Lemma MakeDate_minutes (t d : Z) :
  MakeDate (Day t)
    (MakeTime (HourFromTime t) (MinFromTime t + d) (SecFromTime t)
       (msFromTime t))
  = (t + d * msPerMinute)%Z.
Proof.
  unfold MakeDate, MakeTime, Day, HourFromTime, MinFromTime, SecFromTime,
    msFromTime, msPerDay, msPerHour, msPerMinute, msPerSecond.
  Z.div_mod_to_equations. lia.
Qed.

Lemma TimeClip_Some (t u : Z) :
  TimeClip t = Some u → u = t ∧ (Z.abs t ≤ 8640000000000000)%Z.
Proof.
  unfold TimeClip. destruct (Z.leb_spec (Z.abs t) 8640000000000000);
    [|discriminate].
  by intros [= <-].
Qed.

Lemma TimeClip_None (t : Z) :
  TimeClip t = None → (8640000000000000 < Z.abs t)%Z.
Proof.
  unfold TimeClip. destruct (Z.leb_spec (Z.abs t) 8640000000000000);
    [discriminate|done].
Qed.

Lemma newDate_range (rt : Runtime) (s : string) (t : Z) :
  newDate rt s = Some t → (Z.abs t ≤ 8640000000000000)%Z.
Proof.
  unfold newDate. destruct (dateParse rt s) as [u|]; [|discriminate].
  simpl. intros H. by apply TimeClip_Some in H as [-> ?].
Qed.

(** While the offset of local time does not change, the time value moves by
    [d] minutes as well. *)
Lemma setMinutes_steady (rt : Runtime) (a b t d : Z) :
  steady rt a b →
  (a ≤ t ≤ b)%Z → (a ≤ t + d * msPerMinute ≤ b)%Z →
  setMinutes rt t (getMinutes rt t + d) = TimeClip (t + d * msPerMinute).
Proof.
  intros [offset Hoff] Ht Ht'.
  unfold setMinutes, getMinutes, LocalTime, UTC.
  rewrite MakeDate_minutes.
  destruct (Hoff t Ht) as [-> _].
  destruct (Hoff _ Ht') as [_ Hlocal].
  replace (t + offset + d * msPerMinute)%Z
    with (t + d * msPerMinute + offset)%Z by lia.
  rewrite Hlocal. f_equal. lia.
Qed.

(** ** Available slots *)

Lemma includes_nil (ts : string) : includes [] ts = false.
Proof.
  unfold includes. apply bool_decide_eq_false. apply not_elem_of_nil.
Qed.

Lemma slotLoop_ext (rt : Runtime) (fuel : nat) (s e : option Z) (d : Z)
    (b1 b2 : list (option value)) (acc : list string) :
  (∀ ts, includes b1 ts = includes b2 ts) →
  slotLoop rt fuel s e d b1 acc = slotLoop rt fuel s e d b2 acc.
Proof.
  intros Hext. revert s acc.
  induction fuel as [|fuel IH]; intros s acc; simpl; [done|].
  destruct s as [t|], e as [e'|]; try done.
  destruct (t <? e')%Z; [|done]. rewrite Hext. apply IH.
Qed.

Lemma slotLoop_acc (rt : Runtime) (fuel : nat) (s e : option Z) (d : Z)
    (b : list (option value)) (acc : list string) :
  slotLoop rt fuel s e d b acc = (acc ++.) <$> slotLoop rt fuel s e d b [].
Proof.
  revert s acc. induction fuel as [|fuel IH]; intros s acc; simpl; [done|].
  destruct s as [t|], e as [e'|]; simpl; try by rewrite app_nil_r.
  destruct (t <? e')%Z; simpl; [|by rewrite app_nil_r].
  rewrite IH. rewrite (IH _ (if negb _ then _ else _)).
  destruct (slotLoop rt fuel _ (Some e') d b []) as [r|]; simpl; [|done].
  destruct (negb (includes b (toLocaleTimeString rt t))); simpl; [|done].
  by rewrite <- app_assoc.
Qed.

(** The booked times only remove candidates from the grid. *)
Lemma slotLoop_filter (rt : Runtime) (fuel : nat) (s e : option Z) (d : Z)
    (b : list (option value)) :
  slotLoop rt fuel s e d b []
  = filter (λ ts, includes b ts = false) <$> slotLoop rt fuel s e d [] [].
Proof.
  revert s. induction fuel as [|fuel IH]; intros s; cbn [slotLoop]; [done|].
  destruct s as [t|], e as [e'|]; try done.
  destruct (t <? e')%Z; cbn [fmap option_fmap option_map]; [|done].
  rewrite includes_nil. cbn [negb app].
  rewrite slotLoop_acc, (slotLoop_acc _ _ _ _ _ [] [_]), IH.
  destruct (slotLoop rt fuel _ (Some e') d [] []) as [r|]; simpl; [|done].
  f_equal. rewrite filter_cons.
  destruct (includes b (toLocaleTimeString rt t)) eqn:Hin; simpl.
  - done.
  - done.
Qed.

Lemma slotCount_done (s e d : Z) :
  (e ≤ s)%Z → (0 < d)%Z → slotCount s e d = O.
Proof.
  intros Hes Hd. unfold slotCount.
  assert ((e - s + d - 1) / d < 1)%Z
    by (apply Z.div_lt_upper_bound; lia).
  lia.
Qed.

Lemma slotCount_step (s e d : Z) :
  (s < e)%Z → (0 < d)%Z → slotCount s e d = S (slotCount (s + d) e d).
Proof.
  intros Hse Hd. unfold slotCount.
  replace (e - s + d - 1)%Z with (e - (s + d) + d - 1 + 1 * d)%Z by lia.
  rewrite Z.div_add by lia.
  assert (0 ≤ (e - (s + d) + d - 1) / d)%Z
    by (apply Z.div_pos; lia).
  lia.
Qed.

(** The loop ends in the round in which the start is invalid or has reached
    the end. *)
Lemma slotLoop_done (rt : Runtime) (fuel : nat) (s : option Z) (e d : Z)
    (b : list (option value)) (acc : list string) :
  (∀ t, s = Some t → (e ≤ t)%Z) →
  slotLoop rt (S fuel) s (Some e) d b acc = Some acc.
Proof.
  intros Hs. cbn [slotLoop]. destruct s as [t|]; [|done].
  specialize (Hs t eq_refl). apply Z.ltb_ge in Hs. by rewrite Hs.
Qed.

(** While the offset of local time does not change, the loop visits the
    time values [s], [s + d], [s + 2 d], ... below [e], for [d] minutes
    counted in milliseconds. *)
Lemma slotLoop_step (rt : Runtime) (fuel : nat) (a s e d : Z)
    (b : list (option value)) (acc : list string) :
  (0 < d)%Z → steady rt a (e + d * msPerMinute) →
  (- 8640000000000000 ≤ a ≤ s)%Z → (e ≤ 8640000000000000)%Z → (s < e)%Z →
  ∃ next,
    (∀ t, next = Some t → t = (s + d * msPerMinute)%Z)
    ∧ (next = None → (e ≤ s + d * msPerMinute)%Z)
    ∧ slotLoop rt (S fuel) (Some s) (Some e) d b acc
      = slotLoop rt fuel next (Some e) d b
          (if negb (includes b (toLocaleTimeString rt s))
           then (acc ++ [toLocaleTimeString rt s])%list else acc).
Proof.
  intros Hd Hsteady Ha He Hlt.
  exists (TimeClip (s + d * msPerMinute)).
  assert (0 < d * msPerMinute)%Z by (unfold msPerMinute; lia).
  split; [|split].
  - intros t Ht. by apply TimeClip_Some in Ht as [-> _].
  - intros Hnone. apply TimeClip_None in Hnone. lia.
  - cbn [slotLoop]. apply Z.ltb_lt in Hlt. rewrite Hlt.
    rewrite (setMinutes_steady rt a (e + d * msPerMinute)) by (done || lia).
    reflexivity.
Qed.

Lemma slotLoop_grid (rt : Runtime) (fuel : nat) (a s e d : Z) :
  (0 < d)%Z → steady rt a (e + d * msPerMinute) →
  (- 8640000000000000 ≤ a ≤ s)%Z → (e ≤ 8640000000000000)%Z →
  slotCount s e (d * msPerMinute) < fuel →
  slotLoop rt fuel (Some s) (Some e) d [] []
  = Some (toLocaleTimeString rt
            <$> candidateTimes s (d * msPerMinute)
                  (slotCount s e (d * msPerMinute))).
Proof.
  intros Hd Hsteady Ha He. revert s Ha.
  assert (0 < d * msPerMinute)%Z as Hstep by (unfold msPerMinute; lia).
  induction fuel as [|fuel IH]; intros s Ha Hn; [lia|].
  destruct (Z.lt_ge_cases s e) as [Hlt|Hge].
  - destruct (slotLoop_step rt fuel a s e d [] [] Hd Hsteady Ha He Hlt)
      as (next & Hsome & Hnone & ->).
    rewrite includes_nil. cbn [negb app].
    rewrite slotCount_step in * by done. rewrite slotLoop_acc.
    destruct next as [t|].
    + rewrite (Hsome t eq_refl), IH by lia. reflexivity.
    + specialize (Hnone eq_refl).
      rewrite slotCount_done in * by done.
      destruct fuel as [|fuel]; [lia|]. reflexivity.
  - rewrite slotCount_done by done. by apply slotLoop_done; intros ? [= <-].
Qed.

(** When the loop finishes, its result is that grid. *)
Lemma slotLoop_grid_Some (rt : Runtime) (fuel : nat) (a s e d : Z)
    (grid : list string) :
  (0 < d)%Z → steady rt a (e + d * msPerMinute) →
  (- 8640000000000000 ≤ a ≤ s)%Z → (e ≤ 8640000000000000)%Z →
  slotLoop rt fuel (Some s) (Some e) d [] [] = Some grid →
  grid = toLocaleTimeString rt
           <$> candidateTimes s (d * msPerMinute)
                 (slotCount s e (d * msPerMinute)).
Proof.
  intros Hd Hsteady Ha He. revert s grid Ha.
  assert (0 < d * msPerMinute)%Z as Hstep by (unfold msPerMinute; lia).
  induction fuel as [|fuel IH]; intros s grid Ha; [discriminate|].
  destruct (Z.lt_ge_cases s e) as [Hlt|Hge].
  - destruct (slotLoop_step rt fuel a s e d [] [] Hd Hsteady Ha He Hlt)
      as (next & Hsome & Hnone & ->).
    rewrite includes_nil. cbn [negb app].
    rewrite slotCount_step by done. rewrite slotLoop_acc.
    destruct (slotLoop rt fuel next (Some e) d [] []) as [r|] eqn:Hr;
      [|discriminate].
    intros [= <-]. destruct next as [t|].
    + rewrite (Hsome t eq_refl) in Hr.
      rewrite (IH (s + d * msPerMinute)%Z _ ltac:(lia) Hr). reflexivity.
    + specialize (Hnone eq_refl). rewrite slotCount_done by done.
      destruct fuel as [|fuel]; [discriminate|].
      cbn [slotLoop] in Hr. by injection Hr as <-.
  - rewrite slotCount_done by done.
    rewrite slotLoop_done by (by intros ? [= <-]). by intros [= <-].
Qed.

Lemma candidateTimes_lookup (n : nat) (s d : Z) (i : nat) :
  i < n → candidateTimes s d n !! i = Some (s + Z.of_nat i * d)%Z.
Proof.
  revert s i. induction n as [|n IH]; intros s i Hi; [lia|].
  destruct i as [|i]; simpl.
  - f_equal. lia.
  - rewrite IH by lia. f_equal. lia.
Qed.

Lemma candidateTimes_seq (n : nat) (s d : Z) :
  candidateTimes s d n = (λ i : nat, (s + Z.of_nat i * d)%Z) <$> seq 0 n.
Proof.
  apply list_eq. intros i. rewrite list_lookup_fmap.
  destruct (decide (i < n)) as [Hi|Hi].
  - rewrite candidateTimes_lookup, lookup_seq_lt by done. reflexivity.
  - rewrite lookup_seq_ge by lia. simpl.
    apply lookup_ge_None.
    assert (length (candidateTimes s d n) = n) as ->; [|lia].
    clear. revert s. induction n as [|n IH]; intros s; simpl; [done|].
    by rewrite IH.
Qed.

Lemma slotCount_bounds (n : nat) (s e d : Z) :
  (0 < d)%Z → slotCount s e d = n →
  (e ≤ s + Z.of_nat n * d)%Z
  ∧ ∀ i, i < n → (s + Z.of_nat i * d < e)%Z.
Proof.
  intros Hd. revert s. induction n as [|n IH]; intros s Hn.
  - split; [|lia]. destruct (Z.lt_ge_cases s e) as [Hlt|Hge]; [|lia].
    rewrite slotCount_step in Hn by done. discriminate.
  - destruct (Z.lt_ge_cases s e) as [Hlt|Hge].
    + rewrite slotCount_step in Hn by done. injection Hn as Hn.
      destruct (IH _ Hn) as [Hend Hin]. split; [lia|].
      intros [|i] Hi; [lia|]. specialize (Hin i). lia.
    + rewrite slotCount_done in Hn by done. discriminate.
Qed.

(** The sample runtime on UTC has the same offset at all times, and labels
    the minutes of 15 January 2024 from 09:00 on by the wall clock. *)
Lemma utc_steady (a b : Z) : steady utc a b.
Proof.
  exists 0%Z. intros t _. simpl.
  by destruct (t <? 0)%Z, (t + 0 <? 0 + Z.max 0 0)%Z.
Qed.

Lemma utc_wallClock_check :
  forallb (λ k : nat,
             bool_decide
               (toLocaleTimeString utc
                  (1705309200000 + Z.of_nat k * msPerMinute)
                = hhmm (540 + Z.of_nat k)))
          (seq 0 480) = true.
Proof. vm_compute. reflexivity. Qed.

Lemma utc_wallClock : wallClock utc 1705309200000 540 480.
Proof.
  intros k Hk. pose proof utc_wallClock_check as Hall.
  rewrite forallb_forall in Hall.
  specialize (Hall (Z.to_nat k)).
  rewrite Z2Nat.id in Hall by lia.
  apply bool_decide_eq_true in Hall; [done|].
  apply in_seq. lia.
Qed.




Lemma selects_appointments (doctorId date id : string) (it : item) :
  selects (appointmentsCommand doctorId date) (keyed "appointmentId" id it)
  = true ↔
  it !! "doctorId" = Some (VStr doctorId)
  ∧ it !! "appointmentDate" = Some (VStr date).
Proof.
  rewrite selects_conflict by reflexivity.
  rewrite evalCond_CAnd, !evalCond_CEq, !isStr_true.
  rewrite !keyed_lookup_ne by done. simpl. split.
  - tauto.
  - intros [Hd Hdt]. rewrite Hd, Hdt. repeat split; eauto.
Qed.

(** The booked times of [getAvailableSlots] are the times of all the
    appointments of the doctor on the date. *)
Lemma booked_elem (tbl : gmap string item) (doctorId date ts : string) :
  Some (VStr ts)
  ∈ ((λ apt : item, apt !! "appointmentTime")
       <$> QueryCommand "appointmentId" tbl
             (appointmentsCommand doctorId date))
  ↔ bookedAt tbl doctorId date ts.
Proof.
  rewrite list_elem_of_fmap. unfold bookedAt. split.
  - intros (apt & Htm & Hin).
    apply elem_of_QueryCommand in Hin as [Hsel (id & it & Hl & ->)].
    apply selects_appointments in Hsel as [Hd Hdt].
    rewrite keyed_lookup_ne in Htm by done. by exists id, it.
  - intros (id & it & Hl & Hd & Hdt & Htm).
    exists (keyed "appointmentId" id it). split.
    + by rewrite keyed_lookup_ne.
    + apply elem_of_QueryCommand. split; [|by eauto].
      by apply selects_appointments.
Qed.

(** Cancel leaves doctor, date and time of every appointment as they are. *)
Lemma bookedAt_cancel (now id : string) (body : item) (w : World)
    (doctorId date ts : string) :
  bookedAt (Appointments (cancelAppointment now id body w).2) doctorId date ts
  ↔ bookedAt (Appointments w) doctorId date ts.
Proof.
  rewrite cancelAppointment_eq. cbv zeta. cbn [snd withAppointments Appointments].
  unfold bookedAt. split.
  - intros (id' & it & Hl & Hd & Hdt & Htm).
    destruct (decide (id' = id)) as [->|Hne].
    + rewrite lookup_insert_eq in Hl. injection Hl as <-.
      rewrite !lookup_insert_ne in Hd, Hdt, Htm by done.
      destruct (Appointments w !! id) as [old|] eqn:Hold; simpl in *.
      * by exists id, old.
      * by rewrite lookup_empty in Hd.
    + rewrite lookup_insert_ne in Hl by done. by exists id', it.
  - intros (id' & it & Hl & Hd & Hdt & Htm).
    destruct (decide (id' = id)) as [->|Hne].
    + eexists id, _. rewrite lookup_insert_eq. split; [reflexivity|].
      rewrite Hl. simpl. by rewrite !lookup_insert_ne by done.
    + exists id', it. by rewrite lookup_insert_ne.
Qed.

Lemma includes_ext (b1 b2 : list (option value)) :
  (∀ ts, Some (VStr ts) ∈ b1 ↔ Some (VStr ts) ∈ b2) →
  ∀ ts, includes b1 ts = includes b2 ts.
Proof. intros H ts. unfold includes. by apply bool_decide_ext. Qed.

Lemma computeAvailableSlots_ext (rt : Runtime) (fuel : nat)
    (wh : WorkingHours) (d : Z) (b1 b2 : list (option value))
    (date : string) :
  (∀ ts, Some (VStr ts) ∈ b1 ↔ Some (VStr ts) ∈ b2) →
  computeAvailableSlots rt fuel wh d b1 date
  = computeAvailableSlots rt fuel wh d b2 date.
Proof.
  intros H. unfold computeAvailableSlots.
  apply slotLoop_ext. by apply includes_ext.
Qed.

Lemma computeAvailableSlots_filter (rt : Runtime) (fuel : nat)
    (wh : WorkingHours) (d : Z) (b : list (option value)) (date : string) :
  computeAvailableSlots rt fuel wh d b date
  = filter (λ ts, includes b ts = false)
      <$> computeAvailableSlots rt fuel wh d [] date.
Proof. unfold computeAvailableSlots. apply slotLoop_filter. Qed.

(** Cancel does not change the answer of [getAvailableSlots]. *)
Lemma getAvailableSlots_cancel (rt : Runtime) (fuel : nat)
    (doctorId : string) (date : option string) (now id : string)
    (body : item) (w : World) :
  getAvailableSlots rt fuel doctorId date (cancelAppointment now id body w).2
  = getAvailableSlots rt fuel doctorId date w.
Proof.
  unfold getAvailableSlots.
  destruct date as [[|c date]|]; try done.
  replace (Doctors (cancelAppointment now id body w).2) with (Doctors w)
    by (by rewrite cancelAppointment_eq).
  destruct (Doctors w !! doctorId) as [doctorData|]; [|done].
  destruct (workingHours doctorData) as [wh|]; [|done].
  erewrite computeAvailableSlots_ext; [reflexivity|].
  intros ts. rewrite !booked_elem. apply bookedAt_cancel.
Qed.

(** C2, as the code has it: a candidate slot is left out of the available
    slots iff some appointment of the doctor on the date, whatever its
    status, has that time; the slots that remain keep the order of the
    grid.  Cancelling an appointment changes none of the doctor, date and
    time attributes, so the answer after a Cancel is the answer before it:
    the time of a cancelled appointment does not reappear. *)
Theorem available_slots_exclude_any_status (rt : Runtime) (fuel : nat)
    (doctorId date : string) (w : World) (data : SlotsData) :
  getAvailableSlots rt fuel doctorId (Some date) w
  = Some (Success 200 data) →
  ∃ doctorData wh grid,
    Doctors w !! doctorId = Some doctorData
    ∧ workingHours doctorData = Some wh
    ∧ computeAvailableSlots rt fuel wh
        (effectiveDuration (slotDuration doctorData)) [] date = Some grid
    ∧ (∀ ts, ts ∈ availableSlots data ↔
             ts ∈ grid ∧ ¬ bookedAt (Appointments w) doctorId date ts)
    ∧ sublist (availableSlots data) grid
    ∧ (∀ now id body,
         getAvailableSlots rt fuel doctorId (Some date)
           (cancelAppointment now id body w).2
         = Some (Success 200 data)).
Proof.
  intros Hget.
  assert (Hcancel : ∀ now id body,
            getAvailableSlots rt fuel doctorId (Some date)
              (cancelAppointment now id body w).2
            = Some (Success 200 data))
    by (intros; by rewrite getAvailableSlots_cancel).
  unfold getAvailableSlots in Hget.
  destruct date as [|c date]; [discriminate|].
  destruct (Doctors w !! doctorId) as [doctorData|]; [|discriminate].
  destruct (workingHours doctorData) as [wh|] eqn:Hwh; [|discriminate].
  rewrite computeAvailableSlots_filter in Hget.
  destruct (computeAvailableSlots rt fuel wh _ [] _) as [grid|] eqn:Hgrid;
    [|discriminate].
  simpl in Hget. injection Hget as <-. simpl.
  exists doctorData, wh, grid.
  split; [done|]. split; [done|]. split; [done|].
  split; [|split; [|done]].
  - intros ts. rewrite list_elem_of_filter. unfold includes.
    rewrite bool_decide_eq_false, booked_elem. tauto.
  - apply sublist_filter.
Qed.

(** C2, counterexample: [a-1] was booked at 10:00 and then cancelled; 10:00
    is a candidate of the grid and no appointment with status [scheduled]
    has that time, yet 10:00 is not among the available slots. *)
Lemma cancelled_slot_stays_excluded :
  ∃ data grid,
    getAvailableSlots utc 17 "d-1" (Some "2024-01-15") cancelled1
    = Some (Success 200 data)
    ∧ computeAvailableSlots utc 17 nineToFive 30 [] "2024-01-15" = Some grid
    ∧ "10:00" ∈ grid
    ∧ ("10:00" ∉ availableSlots data)
    ∧ ¬ activeBookedAt (Appointments cancelled1) "d-1" "2024-01-15" "10:00".
Proof.
  eexists _, _. split; [vm_compute; reflexivity|].
  split; [vm_compute; reflexivity|]. split; [|split].
  - by_compute.
  - by_compute.
  - intros (id & it & Hl & Hst & _).
    by apply (cancelled1_none_scheduled id it Hl).
Qed.

Lemma available_slots_exclude_any_status_witness :
  ∃ data,
    getAvailableSlots utc 17 "d-1" (Some "2024-01-15") booked1
    = Some (Success 200 data)
    ∧ ("10:00" ∉ availableSlots data)
    ∧ getAvailableSlots utc 17 "d-1" (Some "2024-01-15")
        (cancelAppointment "t2" "a-1" ∅ booked1).2
      = Some (Success 200 data).
Proof.
  eexists.
  assert (Hget : getAvailableSlots utc 17 "d-1" (Some "2024-01-15") booked1
                 = Some (Success 200 _)) by (vm_compute; reflexivity).
  destruct (available_slots_exclude_any_status _ _ _ _ _ _ Hget)
    as (doc & wh & grid & _ & _ & _ & _ & _ & Hcancel).
  split; [exact Hget|]. split; [|apply Hcancel].
  by_compute.
Defined.

(** ** Update *)

Lemma GetCommand_Some (tbl : gmap string item) (id : string) (stored : item) :
  tbl !! id = Some stored →
  GetCommand "appointmentId" tbl id = Some (keyed "appointmentId" id stored).
Proof. intros H. unfold GetCommand. by rewrite H. Qed.

(** A conflict query that finds an appointment has passed the validation of
    the store. *)
Lemma hasConflict_valid (tbl : gmap string item)
    (doctorId date time : option value) (id : string) :
  hasConflict tbl doctorId date time (Some id) = true →
  validQuery (updateConflictCommand doctorId date time id) = true.
Proof.
  intros Hc.
  apply hasConflict_spec in Hc as (? & d & dt & tm & -> & -> & -> & _).
  reflexivity.
Qed.

(** What the store answers to an update request that it accepts. *)
Lemma UpdateCommand_Some (k : string) (tbl : gmap string item) (id : string)
    (u : Update) (tbl' : gmap string item) (attributes : item) :
  UpdateCommand k tbl id u = Some (tbl', attributes) →
  ∃ acts,
    mapM (resolveAction u) (UpdateExpression u) = Some acts
    ∧ NoDup acts.*1 ∧ (k ∉ acts.*1)
    ∧ tbl' = <[id := foldl applySet (default ∅ (tbl !! id)) acts]> tbl
    ∧ attributes = keyed k id (foldl applySet (default ∅ (tbl !! id)) acts).
Proof.
  unfold UpdateCommand.
  destruct (_ && _); [|discriminate].
  destruct (mapM _ _) as [acts|]; [|discriminate].
  case_bool_decide as Hok; [|discriminate]. cbn [andb].
  destruct (forallb _ _); [|discriminate].
  intros [= <- <-]. exists acts. by destruct Hok.
Qed.

(** Update answers 409 exactly when the payload supplies a date or a time
    and the conflict check for the effective slot is positive; nothing is
    written then. *)
Lemma updateAppointment_409 (now id : string) (updates : item) (w : World)
    (stored : item) :
  Appointments w !! id = Some stored →
  (truthy (updates !! "appointmentDate")
   || truthy (updates !! "appointmentTime") = true
   ∧ hasConflict (Appointments w)
       (jsOr (updates !! "doctorId") (stored !! "doctorId"))
       (jsOr (updates !! "appointmentDate") (stored !! "appointmentDate"))
       (jsOr (updates !! "appointmentTime") (stored !! "appointmentTime"))
       (Some id) = true →
   updateAppointment now id updates w
   = (Failure 409 "Time slot is already booked", w))
  ∧ (statusOf (updateAppointment now id updates w).1 = 409%Z →
     truthy (updates !! "appointmentDate")
     || truthy (updates !! "appointmentTime") = true
     ∧ hasConflict (Appointments w)
         (jsOr (updates !! "doctorId") (stored !! "doctorId"))
         (jsOr (updates !! "appointmentDate") (stored !! "appointmentDate"))
         (jsOr (updates !! "appointmentTime") (stored !! "appointmentTime"))
         (Some id) = true).
Proof.
  intros Hl. unfold updateAppointment.
  rewrite (GetCommand_Some _ _ _ Hl). rewrite !keyed_lookup_ne by done.
  cbv zeta.
  destruct (truthy (updates !! "appointmentDate")
            || truthy (updates !! "appointmentTime")); cbn [andb].
  - destruct (validQuery _) eqn:Hvalid; cbn [negb].
    + destruct (hasConflict _ _ _ _ _).
      * split; done.
      * split; [intros [_ ?]; discriminate|].
        destruct (UpdateCommand _ _ _ _) as [[tbl attrs]|]; discriminate.
    + split; [|discriminate]. intros [_ Hc].
      apply hasConflict_valid in Hc. congruence.
  - split; [intros [? _]; discriminate|].
    destruct (UpdateCommand _ _ _ _) as [[tbl attrs]|]; discriminate.
Qed.

Lemma hasConflict_collides (tbl : gmap string item) (id : string)
    (doctorId date time : option value) :
  hasConflict tbl doctorId date time (Some id) = true ↔
  collidesWith tbl id doctorId date time.
Proof.
  rewrite hasConflict_spec. unfold collidesWith. split.
  - intros (id' & d & dt & tm & ? & ? & ? & Hne & ?).
    exists id', d, dt, tm. repeat split; try done. congruence.
  - intros (id' & d & dt & tm & Hne & ? & ? & ? & ?).
    exists id', d, dt, tm. repeat split; try done. congruence.
Qed.

(** C5, counterexample: [a-1] (doctor [d-1]) and [a-2] (doctor [d-2]) are
    both on 2024-01-15 at 10:00.  An Update of [a-1] whose payload is only
    [doctorId = d-2] changes the effective doctor, [a-2] holds the effective
    slot, and the answer is 200, not 409. *)
Lemma doctor_change_skips_conflict_check :
  Appointments booked2 !! "a-1" = Some a1Record
  ∧ jsOr (toOtherDoctor !! "doctorId") (a1Record !! "doctorId")
    ≠ a1Record !! "doctorId"
  ∧ collidesWith (Appointments booked2) "a-1"
      (jsOr (toOtherDoctor !! "doctorId") (a1Record !! "doctorId"))
      (jsOr (toOtherDoctor !! "appointmentDate")
            (a1Record !! "appointmentDate"))
      (jsOr (toOtherDoctor !! "appointmentTime")
            (a1Record !! "appointmentTime"))
  ∧ statusOf (updateAppointment "t2" "a-1" toOtherDoctor booked2).1
    = 200%Z.
Proof.
  split; [by_compute|]. split; [by_compute|]. split; [|by_compute].
  apply hasConflict_collides. by_compute.
Qed.

(** C5, as the code has it: the conflict check of Update runs iff the
    payload supplies a non-empty [appointmentDate] or [appointmentTime].
    Then it is made for the effective doctor, date and time (the value of
    the payload where that is non-empty, the stored value otherwise),
    excludes the record's own identifier, and Update answers 409, writing
    nothing, iff another appointment holds that slot.  When the payload
    supplies neither, as when it changes only [doctorId], no check is made
    and the answer is never 409. *)
Theorem update_conflict_check_guarded (now id : string) (updates : item)
    (w : World) (stored : item) :
  Appointments w !! id = Some stored →
  (truthy (updates !! "appointmentDate")
   || truthy (updates !! "appointmentTime") = true →
   (collidesWith (Appointments w) id
      (jsOr (updates !! "doctorId") (stored !! "doctorId"))
      (jsOr (updates !! "appointmentDate") (stored !! "appointmentDate"))
      (jsOr (updates !! "appointmentTime") (stored !! "appointmentTime")) →
    updateAppointment now id updates w
    = (Failure 409 "Time slot is already booked", w))
   ∧ (statusOf (updateAppointment now id updates w).1 = 409%Z →
      collidesWith (Appointments w) id
        (jsOr (updates !! "doctorId") (stored !! "doctorId"))
        (jsOr (updates !! "appointmentDate") (stored !! "appointmentDate"))
        (jsOr (updates !! "appointmentTime")
              (stored !! "appointmentTime"))))
  ∧ (truthy (updates !! "appointmentDate")
     || truthy (updates !! "appointmentTime") = false →
     statusOf (updateAppointment now id updates w).1 ≠ 409%Z).
Proof.
  intros Hl.
  destruct (updateAppointment_409 now id updates w stored Hl) as [H409 Hinv].
  split.
  - intros Hguard. split.
    + intros Hc. apply H409. split; [done|]. by apply hasConflict_collides.
    + intros Hst. apply hasConflict_collides. by apply Hinv.
  - intros Hguard Hst. apply Hinv in Hst as [Hg _]. congruence.
Qed.

Lemma update_conflict_check_guarded_witness :
  updateAppointment "t2" "a-1"
    (object [("doctorId", Some (VStr "d-2"));
             ("appointmentTime", Some (VStr "10:00"))]) booked2
  = (Failure 409 "Time slot is already booked", booked2)
  ∧ statusOf (updateAppointment "t2" "a-1" toOtherDoctor booked2).1 ≠ 409%Z.
Proof.
  assert (Hl : Appointments booked2 !! "a-1" = Some a1Record) by by_compute.
  split.
  - apply (proj1 (update_conflict_check_guarded "t2" "a-1" _ booked2
                    a1Record Hl)).
    + by_compute.
    + apply hasConflict_collides. by_compute.
  - apply (proj2 (update_conflict_check_guarded "t2" "a-1" _ booked2
                    a1Record Hl)).
    by_compute.
Defined.

(** C6: when the payload of an Update repeats the date and the time the
    appointment already holds, a 409 answer is always on account of another
    appointment, one with a different identifier, that holds the same date
    and time for the effective doctor; the appointment itself never makes
    the check positive.  In particular Update does not answer 409 when the
    appointment is the only one of the store. *)
Theorem update_same_slot_excludes_itself (now id : string) (updates : item)
    (w : World) (stored : item) :
  Appointments w !! id = Some stored →
  updates !! "appointmentDate" = stored !! "appointmentDate" →
  updates !! "appointmentTime" = stored !! "appointmentTime" →
  (statusOf (updateAppointment now id updates w).1 = 409%Z →
   ∃ id' other,
     id' ≠ id
     ∧ Appointments w !! id' = Some other
     ∧ other !! "doctorId"
       = jsOr (updates !! "doctorId") (stored !! "doctorId")
     ∧ other !! "appointmentDate" = stored !! "appointmentDate"
     ∧ other !! "appointmentTime" = stored !! "appointmentTime")
  ∧ ((∀ id', id' ≠ id → Appointments w !! id' = None) →
     statusOf (updateAppointment now id updates w).1 ≠ 409%Z).
Proof.
  intros Hl Hdt Htm.
  assert (Hother :
    statusOf (updateAppointment now id updates w).1 = 409%Z →
    ∃ id' other,
      id' ≠ id
      ∧ Appointments w !! id' = Some other
      ∧ other !! "doctorId"
        = jsOr (updates !! "doctorId") (stored !! "doctorId")
      ∧ other !! "appointmentDate" = stored !! "appointmentDate"
      ∧ other !! "appointmentTime" = stored !! "appointmentTime").
  { intros Hst.
    apply (updateAppointment_409 now id updates w stored Hl) in Hst
      as [_ Hc].
    apply hasConflict_collides in Hc
      as (id' & d & dt & tm & Hne & Hd & Hdt' & Htm' & other & Hl'
          & Hod & Hodt & Hotm).
    exists id', other. rewrite Hd. rewrite Hdt in Hdt'. rewrite Htm in Htm'.
    assert (∀ a : option value, jsOr a a = a) as Hor
      by (intros a; unfold jsOr; by destruct (truthy a)).
    rewrite Hor in Hdt', Htm'. rewrite Hdt', Htm'. done. }
  split; [exact Hother|].
  intros Honly Hst. destruct (Hother Hst) as (id' & other & Hne & Hl' & _).
  rewrite (Honly id' Hne) in Hl'. discriminate.
Qed.

Lemma booked1_table : Appointments booked1 = {["a-1" := a1Record]}.
Proof. by_compute. Qed.

Lemma update_same_slot_excludes_itself_witness :
  statusOf (updateAppointment "t2" "a-1" sameSlot booked1).1 ≠ 409%Z.
Proof.
  apply (proj2 (update_same_slot_excludes_itself "t2" "a-1" sameSlot
                  booked1 a1Record
                  ltac:(by_compute) ltac:(by_compute) ltac:(by_compute))).
  intros id' Hne. rewrite booked1_table. by apply lookup_singleton_ne.
Defined.

(** *** The update request *)

Lemma foldl_insert_notin {V} (g : string * value → string)
    (h : string * value → V) (l : list (string * value))
    (m : gmap string V) (key : string) :
  (∀ kv, kv ∈ l → g kv ≠ key) →
  foldl (λ m kv, <[g kv := h kv]> m) m l !! key = m !! key.
Proof.
  revert m. induction l as [|kv l IH]; intros m Hnot; simpl; [done|].
  rewrite IH by (intros kv' Hin; apply Hnot; by right).
  apply lookup_insert_ne. apply Hnot. by left.
Qed.

Lemma foldl_insert_in {V} (g : string * value → string)
    (h : string * value → V) (l : list (string * value))
    (m : gmap string V) (kv : string * value) :
  NoDup (g <$> l) → kv ∈ l →
  foldl (λ m kv, <[g kv := h kv]> m) m l !! g kv = Some (h kv).
Proof.
  revert m. induction l as [|kv' l IH]; intros m Hnd Hin.
  - by apply not_elem_of_nil in Hin.
  - rewrite fmap_cons in Hnd. apply NoDup_cons in Hnd as [Hfresh Hnd].
    simpl. apply elem_of_cons in Hin as [->|Hin].
    + rewrite foldl_insert_notin; [by rewrite lookup_insert_eq|].
      intros kv Hkv Heq. apply Hfresh. rewrite <- Heq.
      by apply list_elem_of_fmap_2.
    + by apply IH.
Qed.

Lemma addKey_mutable (acc : Update) (kv : string * value) :
  kv.1 ≠ "appointmentId" ∧ kv.1 ≠ "createdAt" →
  addKey acc kv
  = {| UpdateExpression :=
         (UpdateExpression acc ++ [(String "#" kv.1, String ":" kv.1)])%list;
       ExpressionAttributeNames :=
         <[String "#" kv.1 := kv.1]> (ExpressionAttributeNames acc);
       ExpressionAttributeValues :=
         <[String ":" kv.1 := kv.2]> (ExpressionAttributeValues acc) |}.
Proof.
  intros [H1 H2]. unfold addKey.
  apply String.eqb_neq in H1, H2. by rewrite H1, H2.
Qed.

Lemma addKey_immutable (acc : Update) (kv : string * value) :
  ¬ (kv.1 ≠ "appointmentId" ∧ kv.1 ≠ "createdAt") → addKey acc kv = acc.
Proof.
  intros H. unfold addKey.
  destruct (String.eqb_spec kv.1 "appointmentId") as [|H1]; [done|].
  destruct (String.eqb_spec kv.1 "createdAt") as [|H2]; [done|].
  by destruct H.
Qed.

(** The request built by the loop over the keys, component by component. *)
Lemma foldl_addKey (l : list (string * value)) (acc : Update) :
  let kvs := filter (λ kv, kv.1 ≠ "appointmentId" ∧ kv.1 ≠ "createdAt") l in
  UpdateExpression (foldl addKey acc l)
  = (UpdateExpression acc
       ++ ((λ kv, (String "#" kv.1, String ":" kv.1)) <$> kvs))%list
  ∧ ExpressionAttributeNames (foldl addKey acc l)
    = foldl (λ m kv, <[String "#" kv.1 := kv.1]> m)
            (ExpressionAttributeNames acc) kvs
  ∧ ExpressionAttributeValues (foldl addKey acc l)
    = foldl (λ m kv, <[String ":" kv.1 := kv.2]> m)
            (ExpressionAttributeValues acc) kvs.
Proof.
  revert acc. induction l as [|kv l IH]; intros acc; simpl.
  - by rewrite app_nil_r.
  - rewrite filter_cons. case_decide as Hmut.
    + rewrite addKey_mutable by done.
      destruct (IH {| UpdateExpression :=
                        (UpdateExpression acc
                           ++ [(String "#" kv.1, String ":" kv.1)])%list;
                      ExpressionAttributeNames :=
                        <[String "#" kv.1 := kv.1]>
                          (ExpressionAttributeNames acc);
                      ExpressionAttributeValues :=
                        <[String ":" kv.1 := kv.2]>
                          (ExpressionAttributeValues acc) |})
        as (He & Hn & Hv).
      rewrite He, Hn, Hv. simpl. by rewrite <- app_assoc.
    + rewrite addKey_immutable by done. apply IH.
Qed.

Lemma NoDup_mutableEntries (updates : item) :
  NoDup (mutableEntries updates).*1.
Proof.
  unfold mutableEntries.
  apply (sublist_NoDup _ (map_to_list updates).*1).
  - apply NoDup_fst_map_to_list.
  - apply fmap_sublist, sublist_filter.
Qed.

Lemma elem_of_mutableEntries (updates : item) (k : string) (v : value) :
  (k, v) ∈ mutableEntries updates ↔
  updates !! k = Some v ∧ k ≠ "appointmentId" ∧ k ≠ "createdAt".
Proof.
  unfold mutableEntries. rewrite list_elem_of_filter, elem_of_map_to_list.
  simpl. tauto.
Qed.

Lemma elem_of_mutableEntries_fst (updates : item) (k : string) :
  k ∈ (mutableEntries updates).*1 ↔
  is_Some (updates !! k) ∧ k ≠ "appointmentId" ∧ k ≠ "createdAt".
Proof.
  rewrite list_elem_of_fmap. split.
  - intros ([k' v] & -> & Hin). apply elem_of_mutableEntries in Hin.
    simpl. destruct Hin as (Hl & ? & ?). eauto.
  - intros ([v Hv] & ? & ?). exists (k, v). split; [done|].
    by apply elem_of_mutableEntries.
Qed.

Lemma NoDup_placeholders (c : ascii) (l : list (string * value)) :
  NoDup l.*1 → NoDup ((λ kv, String c kv.1) <$> l).
Proof.
  intros Hnd.
  change ((λ kv : string * value, String c kv.1) <$> l)
    with ((String c ∘ fst) <$> l).
  rewrite (list_fmap_compose fst (String c)).
  apply NoDup_fmap_2_strong; [|done].
  intros x y _ _ Heq. by injection Heq.
Qed.

(** The actions of the update request of Update, with their placeholders
    resolved: the clock reading for [updatedAt], then the entries of the
    payload.  The value bound to [:updatedAt] is the clock reading unless
    the payload has the key [updatedAt]. *)
Lemma buildUpdate_actions (now : string) (updates : item) :
  ∃ V,
    mapM (resolveAction (buildUpdate now updates))
         (UpdateExpression (buildUpdate now updates))
    = Some (("updatedAt", V) :: mutableEntries updates)
    ∧ ("updatedAt" ∉ (mutableEntries updates).*1 → V = VStr now).
Proof.
  unfold buildUpdate.
  destruct (foldl_addKey (map_to_list updates)
              {| UpdateExpression := [("updatedAt", ":updatedAt")];
                 ExpressionAttributeNames := ∅;
                 ExpressionAttributeValues := {[":updatedAt" := VStr now]} |})
    as (He & Hn & Hv).
  fold (mutableEntries updates) in He, Hn, Hv.
  pose proof (NoDup_mutableEntries updates) as Hnd.
  set (u := foldl addKey _ _) in *. simpl in He, Hn, Hv.
  assert (∃ V, ExpressionAttributeValues u !! ":updatedAt" = Some V
               ∧ ("updatedAt" ∉ (mutableEntries updates).*1 → V = VStr now))
    as (V & HV & Hnow).
  { destruct (decide ("updatedAt" ∈ (mutableEntries updates).*1))
      as [Hin|Hnin].
    - pose proof Hin as Hin'.
      apply list_elem_of_fmap in Hin as ([k v] & Hk & Hin).
      simpl in Hk. subst k. exists v. split; [|done].
      rewrite Hv.
      apply (foldl_insert_in (λ kv, String ":" kv.1) snd _ _
               ("updatedAt", v)); [|done].
      by apply NoDup_placeholders.
    - exists (VStr now). split; [|done].
      rewrite Hv, foldl_insert_notin; [by rewrite lookup_singleton_eq|].
      intros [k v] Hin Heq. simpl in Heq. injection Heq as ->.
      apply Hnin. by apply (list_elem_of_fmap_2 fst _ ("updatedAt", v)). }
  exists V. split; [|done].
  rewrite He. apply mapM_Some_2. constructor.
  - unfold resolveAction. simpl. by rewrite HV.
  - apply Forall2_fmap_l, Forall_Forall2_diag, Forall_forall.
    intros [k v] Hin. unfold resolveAction. simpl.
    rewrite Hn, Hv.
    rewrite (foldl_insert_in (λ kv, String "#" kv.1) fst _ _ (k, v))
      by (by try apply NoDup_placeholders).
    rewrite (foldl_insert_in (λ kv, String ":" kv.1) snd _ _ (k, v))
      by (by try apply NoDup_placeholders).
    done.
Qed.

(** C7: after a successful Update the identifier and [createdAt] of the
    record are the stored ones, also when the payload supplies them; every
    other field the payload supplies has the supplied value; [updatedAt] is
    the clock reading of the call; every field the payload does not supply
    keeps its stored value; the store after the call holds the record
    under its identifier, and no other record and no doctor changes. *)
Theorem update_overwrites_supplied_fields (now id : string) (updates : item)
    (w w' : World) (attributes : item) :
  updateAppointment now id updates w = (Success 200 attributes, w') →
  ∃ old new,
    Appointments w !! id = Some old
    ∧ w' = withAppointments w (<[id := new]> (Appointments w))
    ∧ attributes = keyed "appointmentId" id new
    ∧ attributes !! "appointmentId" = Some (VStr id)
    ∧ new !! "appointmentId" = old !! "appointmentId"
    ∧ new !! "createdAt" = old !! "createdAt"
    ∧ new !! "updatedAt" = Some (VStr now)
    ∧ (∀ k v, updates !! k = Some v →
              k ≠ "appointmentId" → k ≠ "createdAt" → new !! k = Some v)
    ∧ (∀ k, updates !! k = None → k ≠ "updatedAt" → new !! k = old !! k)
    ∧ Appointments w' !! id = Some new
    ∧ (∀ id', id' ≠ id → Appointments w' !! id' = Appointments w !! id')
    ∧ Doctors w' = Doctors w.
Proof.
  unfold updateAppointment, GetCommand. intros Hup.
  destruct (Appointments w !! id) as [old|] eqn:Hold; [|discriminate].
  cbn [fmap option_fmap option_map] in Hup. cbv zeta in Hup.
  destruct (_ && negb _); [discriminate|].
  destruct (if truthy (updates !! "appointmentDate")
               || truthy (updates !! "appointmentTime")
            then _ else false); [discriminate|].
  destruct (UpdateCommand _ _ _ _) as [[tbl attrs]|] eqn:Hcmd;
    [|discriminate].
  injection Hup as <- <-.
  apply UpdateCommand_Some in Hcmd as (acts & Hacts' & Hnd & Hkey & -> & ->).
  destruct (buildUpdate_actions now updates) as (V & Hacts & HV).
  rewrite Hacts in Hacts'. injection Hacts' as <-. rewrite Hold.
  rewrite fmap_cons in Hnd, Hkey. apply NoDup_cons in Hnd as [Hfresh Hnd].
  simpl in Hfresh, Hkey. specialize (HV Hfresh). subst V. clear Hacts.
  cbn [default foldl]. unfold applySet at 2. cbn [fst snd].
  set (new := foldl applySet (<["updatedAt" := VStr now]> old)
                (mutableEntries updates)).
  cbn [withAppointments Appointments Doctors].
  assert (Hframe : ∀ k, k ∉ (mutableEntries updates).*1 →
                        new !! k = <["updatedAt" := VStr now]> old !! k).
  { intros k Hk. apply (foldl_insert_notin fst snd).
    intros kv Hin <-. apply Hk. by apply list_elem_of_fmap_2. }
  exists old, new. repeat split.
  - apply keyed_lookup_key.
  - rewrite Hframe, lookup_insert_ne; [done|done|].
    rewrite elem_of_mutableEntries_fst. tauto.
  - rewrite Hframe, lookup_insert_ne; [done|done|].
    rewrite elem_of_mutableEntries_fst. tauto.
  - by rewrite Hframe, lookup_insert_eq.
  - intros k v Hk H1 H2.
    apply (foldl_insert_in fst snd _ _ (k, v)); [done|].
    by apply elem_of_mutableEntries.
  - intros k Hk Hne. rewrite Hframe, lookup_insert_ne; [done|done|].
    rewrite elem_of_mutableEntries_fst, Hk. intros [[? ?] _]. discriminate.
  - apply lookup_insert_eq.
  - intros id' Hne. by apply lookup_insert_ne.
Qed.

(** ** Doctor schedule *)

Lemma fileAppointment_lookup (schedule : gmap string (list item))
    (appointment : item) (d : string) :
  fileAppointment schedule appointment !! d
  = if decide (dateKey appointment = d)
    then Some (default [] (schedule !! d) ++ [appointment])%list
    else schedule !! d.
Proof.
  unfold fileAppointment. case_decide as Hd.
  - subst d. destruct (schedule !! dateKey appointment) as [l|] eqn:Hl.
    + by rewrite lookup_alter_eq, Hl.
    + by rewrite lookup_alter_eq, lookup_insert_eq.
  - rewrite lookup_alter_ne by done.
    destruct (schedule !! dateKey appointment); [done|].
    by rewrite lookup_insert_ne.
Qed.

(** The schedule after filing a list of appointments: under every date, what
    was there followed by the appointments of that date, in their order. *)
Lemma foldl_fileAppointment (data : list item)
    (schedule : gmap string (list item)) (d : string) :
  foldl fileAppointment schedule data !! d
  = match filter (λ it, dateKey it = d) data with
    | [] => schedule !! d
    | l => Some (default [] (schedule !! d) ++ l)%list
    end.
Proof.
  revert schedule. induction data as [|a data IH]; intros schedule; [done|].
  simpl. rewrite IH, fileAppointment_lookup, filter_cons.
  case_decide as Hd.
  - destruct (filter _ data) as [|b l]; [done|].
    simpl. by rewrite <- app_assoc.
  - done.
Qed.

Lemma filter_ext_in {A} (P Q : A → Prop) `{∀ x, Decision (P x)}
    `{∀ x, Decision (Q x)} (l : list A) :
  (∀ x, x ∈ l → P x ↔ Q x) → filter P l = filter Q l.
Proof.
  induction l as [|x l IH]; intros Hext; [done|].
  rewrite !filter_cons.
  rewrite IH by (intros y Hy; apply Hext; by right).
  destruct (Hext x ltac:(by left)) as [H1 H2].
  repeat case_decide; tauto.
Qed.

(** The order of strings, in which the store compares dates, is
    transitive. *)
Lemma leb_trans (a b c : string) :
  String.leb a b = true → String.leb b c = true → String.leb a c = true.
Proof.
  unfold String.leb. revert b c.
  induction a as [|x a IH]; intros [|y b] [|z c]; simpl; try done.
  unfold Ascii.compare.
  destruct (N.compare_spec (N_of_ascii x) (N_of_ascii y)) as [Hxy|Hxy|Hxy],
           (N.compare_spec (N_of_ascii y) (N_of_ascii z)) as [Hyz|Hyz|Hyz],
           (N.compare_spec (N_of_ascii x) (N_of_ascii z)) as [Hxz|Hxz|Hxz];
    try done; try lia.
  apply IH.
Qed.




Lemma update_overwrites_supplied_fields_witness :
  ∃ attributes w',
    updateAppointment "t2" "a-1" notePatch booked1
    = (Success 200 attributes, w')
    ∧ attributes !! "appointmentId" = Some (VStr "a-1")
    ∧ attributes !! "createdAt" = Some (VStr "t0")
    ∧ attributes !! "updatedAt" = Some (VStr "t2")
    ∧ attributes !! "notes" = Some (VStr "bring x-rays")
    ∧ attributes !! "doctorId" = Some (VStr "d-1").
Proof.
  assert (Hs : statusOf (updateAppointment "t2" "a-1" notePatch booked1).1
               = 200%Z
               ∧ is_Some (dataOf
                   (updateAppointment "t2" "a-1" notePatch booked1).1))
    by (split; by_compute).
  destruct (updateAppointment "t2" "a-1" notePatch booked1)
    as [[st attributes|st msg] w'] eqn:H; simpl in Hs; destruct Hs as [-> Hd];
    [|by destruct Hd].
  exists attributes, w'. split; [done|].
  destruct (update_overwrites_supplied_fields _ _ _ _ _ _ H)
      as (old & new & Hold & _ & Hattr & Hid & _ & Hc & Hu & Hsup & Hkeep
          & _).
  rewrite booked1_table, lookup_singleton_eq in Hold. injection Hold as <-.
  split; [exact Hid|]. rewrite Hattr. rewrite !keyed_lookup_ne by done.
  (split; [rewrite Hc; by_compute|]). split; [exact Hu|]. split.
  + (apply Hsup; [by_compute|done|done]).
  + (rewrite Hkeep; [by_compute|by_compute|done]).
Defined.

(** ** The status filter *)

Lemma object_fold_notin (fields : list (string * option value))
    (acc : item) (k : string) :
  k ∉ fields.*1 →
  foldl (λ (it : item) (f : string * option value),
           match f.2 with Some v => <[f.1 := v]> it | None => it end)
        acc fields !! k
  = acc !! k.
Proof.
  revert acc. induction fields as [|[k' v] fields IH]; intros acc Hk; [done|].
  rewrite fmap_cons in Hk. apply not_elem_of_cons in Hk as [Hne Hk].
  simpl. rewrite IH by done.
  destruct v; [by rewrite lookup_insert_ne|done].
Qed.

(** An attribute that is not named in an object literal is absent. *)
Lemma object_lookup_notin (fields : list (string * option value))
    (k : string) :
  k ∉ fields.*1 → object fields !! k = None.
Proof.
  intros Hk. unfold object. by rewrite object_fold_notin, lookup_empty.
Qed.

(** The last definition of a property is the one the object holds. *)
Lemma object_lookup_in (before after : list (string * option value))
    (k : string) (v : value) :
  k ∉ after.*1 →
  object (before ++ (k, Some v) :: after) !! k = Some v.
Proof.
  intros Hk. unfold object. rewrite foldl_app. simpl.
  by rewrite object_fold_notin, lookup_insert_eq.
Qed.

Lemma object_lookup_head (after : list (string * option value))
    (k : string) (v : value) :
  k ∉ after.*1 → object ((k, Some v) :: after) !! k = Some v.
Proof. apply (object_lookup_in []). Qed.

(** What Create writes when it answers 201. *)
Lemma createAppointment_201 (uuid createdNow updatedNow : string)
    (body : item) (w : World) :
  statusOf (createAppointment uuid createdNow updatedNow body w).1 = 201%Z →
  ∃ it,
    createAppointment uuid createdNow updatedNow body w
    = (Success 201 it, withAppointments w (<[uuid := it]> (Appointments w)))
    ∧ it !! "appointmentStatus" = None
    ∧ it !! "status" = Some (VStr "scheduled").
Proof.
  unfold createAppointment.
  destruct (negb _ || negb _ || negb _ || negb _); [discriminate|].
  destruct (hasConflict _ _ _ _ _); [discriminate|].
  unfold PutCommand.
  rewrite object_lookup_head by (simpl; by_compute).
  intros _. eexists. split; [reflexivity|]. split.
  - apply object_lookup_notin. simpl. by_compute.
  - apply (object_lookup_in
             [("appointmentId", Some (VStr uuid));
              ("patientId", body !! "patientId");
              ("doctorId", body !! "doctorId");
              ("appointmentDate", body !! "appointmentDate");
              ("appointmentTime", body !! "appointmentTime");
              ("appointmentType", body !! "appointmentType");
              ("notes", body !! "notes")]
             [("createdAt", Some (VStr createdNow));
              ("updatedAt", Some (VStr updatedNow))]).
    simpl. by_compute.
Qed.

(** A by-doctor query with a status filter answers only items that carry
    the attribute [appointmentStatus]. *)
Lemma getDoctorAppointments_filtered (doctorId : string)
    (date status : option value) (w : World) (items : list item)
    (x : item) :
  truthy status = true →
  getDoctorAppointments doctorId date status w = Success 200 items →
  x ∈ items → x !! "appointmentStatus" = status ∧ is_Some status.
Proof.
  unfold getDoctorAppointments. intros Hst Heq Hin. rewrite Hst in Heq.
  injection Heq as <-.
  apply elem_of_QueryCommand in Hin as [Hsel _].
  unfold selects in Hsel. rewrite !andb_true_iff in Hsel.
  destruct Hsel as [_ Hf]. simpl FilterExpression in Hf.
  apply evalCond_CEq in Hf. tauto.
Qed.



(** * Further properties of the handlers *)

(** ** Create, read, and the store *)

(** What a 201 answer of Create tells about the request and the record. *)
Lemma createAppointment_inv (uuid createdNow updatedNow : string)
    (body : item) (w : World) :
  statusOf (createAppointment uuid createdNow updatedNow body w).1 = 201%Z →
  ∃ it d dt tm,
    body !! "doctorId" = Some (VStr d)
    ∧ body !! "appointmentDate" = Some (VStr dt)
    ∧ body !! "appointmentTime" = Some (VStr tm)
    ∧ hasConflict (Appointments w) (Some (VStr d)) (Some (VStr dt))
        (Some (VStr tm)) None = false
    ∧ createAppointment uuid createdNow updatedNow body w
      = (Success 201 it, withAppointments w (<[uuid := it]> (Appointments w)))
    ∧ it !! "appointmentId" = Some (VStr uuid)
    ∧ it !! "doctorId" = Some (VStr d)
    ∧ it !! "appointmentDate" = Some (VStr dt)
    ∧ it !! "appointmentTime" = Some (VStr tm)
    ∧ d ≠ "" ∧ dt ≠ "" ∧ tm ≠ "".
Proof.
  unfold createAppointment.
  destruct (truthy (body !! "patientId")) eqn:Hp; [|discriminate].
  destruct (truthy (body !! "doctorId")) eqn:Hd; [|discriminate].
  destruct (truthy (body !! "appointmentDate")) eqn:Hdt; [|discriminate].
  destruct (truthy (body !! "appointmentTime")) eqn:Htm; [|discriminate].
  simpl.
  apply truthy_Some in Hd as (d & Hd & Hd0).
  apply truthy_Some in Hdt as (dt & Hdt & Hdt0).
  apply truthy_Some in Htm as (tm & Htm & Htm0).
  rewrite Hd, Hdt, Htm.
  destruct (hasConflict _ _ _ _ _) eqn:Hc; [discriminate|].
  unfold PutCommand. rewrite object_lookup_head by (simpl; by_compute).
  intros _. eexists _, d, dt, tm.
  split; [done|]. split; [done|]. split; [done|]. split; [done|].
  split; [reflexivity|]. split; [|split; [|split; [|split; [|done]]]].
  - apply object_lookup_head. simpl. by_compute.
  - apply (object_lookup_in
             [("appointmentId", Some (VStr uuid));
              ("patientId", body !! "patientId")]).
    simpl. by_compute.
  - apply (object_lookup_in
             [("appointmentId", Some (VStr uuid));
              ("patientId", body !! "patientId");
              ("doctorId", Some (VStr d))]).
    simpl. by_compute.
  - apply (object_lookup_in
             [("appointmentId", Some (VStr uuid));
              ("patientId", body !! "patientId");
              ("doctorId", Some (VStr d));
              ("appointmentDate", Some (VStr dt))]).
    simpl. by_compute.
Qed.

Lemma createAppointment_unchanged (uuid createdNow updatedNow : string)
    (body : item) (w : World) :
  statusOf (createAppointment uuid createdNow updatedNow body w).1 ≠ 201%Z →
  (createAppointment uuid createdNow updatedNow body w).2 = w.
Proof.
  unfold createAppointment.
  destruct (negb _ || negb _ || negb _ || negb _); [done|].
  destruct (hasConflict _ _ _ _ _); [done|].
  unfold PutCommand. rewrite object_lookup_head by (simpl; by_compute).
  simpl. done.
Qed.

Lemma updateAppointment_unchanged (now id : string) (updates : item)
    (w : World) :
  statusOf (updateAppointment now id updates w).1 ≠ 200%Z →
  (updateAppointment now id updates w).2 = w.
Proof.
  unfold updateAppointment.
  destruct (GetCommand _ _ _); [|done]. cbv zeta.
  destruct (_ && negb _); [done|].
  destruct (if _ : bool then _ else false); [done|].
  destruct (UpdateCommand _ _ _ _) as [[tbl attributes]|]; [|done].
  simpl. done.
Qed.

Lemma holdsSlot_insert_ne (tbl : gmap string item) (id id' : string)
    (it : item) (d dt : string) (tm : value) :
  id' ≠ id →
  holdsSlot (<[id := it]> tbl) id' d dt tm ↔ holdsSlot tbl id' d dt tm.
Proof. intros Hne. unfold holdsSlot. by rewrite lookup_insert_ne. Qed.

Lemma holdsSlot_insert_eq (tbl : gmap string item) (id : string)
    (it : item) (d dt : string) (tm : value) :
  holdsSlot (<[id := it]> tbl) id d dt tm ↔
  it !! "doctorId" = Some (VStr d)
  ∧ it !! "appointmentDate" = Some (VStr dt)
  ∧ it !! "appointmentTime" = Some tm.
Proof.
  unfold holdsSlot. rewrite lookup_insert_eq. split.
  - by intros (it' & [= <-] & ?).
  - intros ?. by exists it.
Qed.

Lemma hasConflict_false_None (tbl : gmap string item) (d dt : string)
    (tm : value) (id : string) :
  hasConflict tbl (Some (VStr d)) (Some (VStr dt)) (Some tm) None = false →
  ¬ holdsSlot tbl id d dt tm.
Proof.
  intros Hfree Hheld.
  assert (hasConflict tbl (Some (VStr d)) (Some (VStr dt)) (Some tm) None
          = true) as Hc; [|congruence].
  apply hasConflict_spec. exists id, d, dt, tm. by repeat split.
Qed.

(** X1: Create keeps the store free of double bookings: when no two
    appointments hold the same doctor, date and time before a Create, none do
    after it, whatever the answer is. *)
Theorem create_keeps_no_double_booking (uuid createdNow updatedNow : string)
    (body : item) (w : World) :
  noDoubleBooking (Appointments w) →
  noDoubleBooking
    (Appointments (createAppointment uuid createdNow updatedNow body w).2).
Proof.
  intros Hinv.
  destruct (decide (statusOf (createAppointment uuid createdNow updatedNow
                                body w).1 = 201%Z)) as [H201|Hno];
    [|by rewrite createAppointment_unchanged].
  destruct (createAppointment_inv _ _ _ _ _ H201)
    as (it & d & dt & tm & _ & _ & _ & Hfree & Heq & _ & Hd & Hdt & Htm & _).
  rewrite Heq. simpl. intros id1 id2 d' dt' tm' H1 H2.
  destruct (decide (id1 = uuid)) as [->|Hne1],
           (decide (id2 = uuid)) as [->|Hne2]; [done| | |].
  - apply holdsSlot_insert_eq in H1 as (Hd1 & Hdt1 & Htm1).
    apply holdsSlot_insert_ne in H2; [|done].
    assert (d' = d) as -> by congruence.
    assert (dt' = dt) as -> by congruence.
    assert (tm' = VStr tm) as -> by congruence.
    by destruct (hasConflict_false_None _ _ _ _ id2 Hfree).
  - apply holdsSlot_insert_eq in H2 as (Hd2 & Hdt2 & Htm2).
    apply holdsSlot_insert_ne in H1; [|done].
    assert (d' = d) as -> by congruence.
    assert (dt' = dt) as -> by congruence.
    assert (tm' = VStr tm) as -> by congruence.
    by destruct (hasConflict_false_None _ _ _ _ id1 Hfree).
  - apply holdsSlot_insert_ne in H1; [|done].
    apply holdsSlot_insert_ne in H2; [|done]. by apply (Hinv _ _ d' dt' tm').
Qed.

Lemma noDoubleBooking_empty : noDoubleBooking ∅.
Proof. intros id1 id2 d dt tm (it & Hl & _). by rewrite lookup_empty in Hl. Qed.

Lemma create_keeps_no_double_booking_witness :
  noDoubleBooking (Appointments booked1).
Proof.
  apply (create_keeps_no_double_booking "a-1" "t0" "t0" sampleBody clinic).
  apply noDoubleBooking_empty.
Defined.

(** X2: after a Create answered 201, every Create for the same doctor, date
    and time is answered 409 and writes nothing, whoever the patient is. *)
Theorem create_twice_conflicts (uuid createdNow updatedNow : string)
    (body : item) (w : World) (uuid' createdNow' updatedNow' : string)
    (body' : item) :
  statusOf (createAppointment uuid createdNow updatedNow body w).1 = 201%Z →
  truthy (body' !! "patientId") = true →
  body' !! "doctorId" = body !! "doctorId" →
  body' !! "appointmentDate" = body !! "appointmentDate" →
  body' !! "appointmentTime" = body !! "appointmentTime" →
  createAppointment uuid' createdNow' updatedNow' body'
    (createAppointment uuid createdNow updatedNow body w).2
  = (Failure 409 "Time slot is already booked",
     (createAppointment uuid createdNow updatedNow body w).2).
Proof.
  intros H201 Hp Hd' Hdt' Htm'.
  destruct (createAppointment_inv _ _ _ _ _ H201)
    as (it & d & dt & tm & Hd & Hdt & Htm & _ & Heq & _ & Hid & Hidt & Hitm
        & Hd0 & Hdt0 & Htm0).
  rewrite Heq. cbn [snd]. unfold createAppointment at 1.
  rewrite Hp, Hd', Hdt', Htm', Hd, Hdt, Htm.
  assert (∀ x, x ≠ "" → truthy (Some (VStr x)) = true) as Htr.
  { intros x Hx. simpl. apply String.eqb_neq in Hx. by rewrite Hx. }
  rewrite !Htr by done. cbn [negb orb].
  assert (hasConflict
            (Appointments
               (withAppointments w (<[uuid := it]> (Appointments w))))
            (Some (VStr d)) (Some (VStr dt)) (Some (VStr tm)) None = true)
    as ->; [|done].
  apply hasConflict_spec. exists uuid, d, dt, (VStr tm).
  repeat split; try done. simpl. by apply holdsSlot_insert_eq.
Qed.

Lemma create_twice_conflicts_witness :
  statusOf (createAppointment "a-2" "t1" "t1"
              (<["patientId" := VStr "p-2"]> sampleBody) booked1).1 = 409%Z.
Proof.
  unfold booked1.
  rewrite (create_twice_conflicts "a-1" "t0" "t0" sampleBody clinic
             "a-2" "t1" "t1" (<["patientId" := VStr "p-2"]> sampleBody));
    [reflexivity|by_compute..].
Defined.

(** X3: a record created with answer 201 is read back unchanged by
    [getAppointmentById] under the generated identifier, and reading any
    other identifier is answered as before the Create. *)
Theorem create_then_get (uuid createdNow updatedNow : string) (body : item)
    (w : World) :
  statusOf (createAppointment uuid createdNow updatedNow body w).1 = 201%Z →
  ∃ it,
    (createAppointment uuid createdNow updatedNow body w).1 = Success 201 it
    ∧ getAppointmentById uuid
        (createAppointment uuid createdNow updatedNow body w).2
      = Success 200 it
    ∧ ∀ id, id ≠ uuid →
        getAppointmentById id
          (createAppointment uuid createdNow updatedNow body w).2
        = getAppointmentById id w.
Proof.
  intros H201.
  destruct (createAppointment_inv _ _ _ _ _ H201)
    as (it & d & dt & tm & _ & _ & _ & _ & Heq & Hid & _).
  exists it. rewrite Heq. simpl. split; [done|].
  unfold getAppointmentById, GetCommand. simpl. split.
  - rewrite lookup_insert_eq. simpl. unfold keyed. by rewrite insert_id.
  - intros id Hne. by rewrite lookup_insert_ne.
Qed.

Lemma create_then_get_witness :
  dataOf (getAppointmentById "a-1" booked1) = Some a1Record.
Proof.
  destruct (create_then_get "a-1" "t0" "t0" sampleBody clinic)
    as (it & Hc & Hg & _); [by_compute|].
  unfold booked1. rewrite Hg. simpl. f_equal.
  assert (dataOf (createAppointment "a-1" "t0" "t0" sampleBody clinic).1
          = Some a1Record) as Hd by by_compute.
  rewrite Hc in Hd. simpl in Hd. by injection Hd.
Defined.

(** X4: Create writes only when it answers 201 and Update only when it
    answers 200: after any other answer (400, 404, 409, 500) the store is the
    one before the call. *)
Theorem failed_requests_write_nothing (uuid createdNow updatedNow : string)
    (body : item) (now id : string) (updates : item) (w : World) :
  (statusOf (createAppointment uuid createdNow updatedNow body w).1 ≠ 201%Z →
   (createAppointment uuid createdNow updatedNow body w).2 = w)
  ∧ (statusOf (updateAppointment now id updates w).1 ≠ 200%Z →
     (updateAppointment now id updates w).2 = w).
Proof.
  split.
  - apply createAppointment_unchanged.
  - apply updateAppointment_unchanged.
Qed.

Lemma failed_requests_write_nothing_witness :
  (createAppointment "a-2" "t1" "t1" sampleBody booked1).2 = booked1
  ∧ (updateAppointment "t1" "a-9" sameSlot booked1).2 = booked1.
Proof.
  split.
  - apply (proj1 (failed_requests_write_nothing "a-2" "t1" "t1" sampleBody
                    "t1" "a-9" sameSlot booked1)).
    by_compute.
  - apply (proj2 (failed_requests_write_nothing "a-2" "t1" "t1" sampleBody
                    "t1" "a-9" sameSlot booked1)).
    by_compute.
Defined.

Lemma updateAppointment_200 (now id : string) (updates : item) (w : World) :
  statusOf (updateAppointment now id updates w).1 = 200%Z →
  ∃ new, (updateAppointment now id updates w).2
         = withAppointments w (<[id := new]> (Appointments w)).
Proof.
  unfold updateAppointment.
  destruct (GetCommand _ _ _); [|discriminate]. cbv zeta.
  destruct (_ && negb _); [discriminate|].
  destruct (if _ : bool then _ else false); [discriminate|].
  destruct (UpdateCommand _ _ _ _) as [[tbl attributes]|] eqn:Hcmd;
    [|discriminate].
  apply UpdateCommand_Some in Hcmd as (acts & _ & _ & _ & -> & _).
  intros _. by eexists.
Qed.

(** X5: no handler removes a record: an identifier that is in the store
    before a Create, an Update or a Cancel is in the store after it. *)
Theorem records_are_never_deleted (uuid createdNow updatedNow : string)
    (body : item) (now id : string) (updates cancelBody : item) (w : World)
    (existing : string) :
  is_Some (Appointments w !! existing) →
  is_Some (Appointments (createAppointment uuid createdNow updatedNow body w).2
           !! existing)
  ∧ is_Some (Appointments (updateAppointment now id updates w).2 !! existing)
  ∧ is_Some (Appointments (cancelAppointment now id cancelBody w).2
             !! existing).
Proof.
  intros Hin.
  assert (Hins : ∀ k (v : item),
            is_Some (<[k := v]> (Appointments w) !! existing)).
  { intros k v. rewrite lookup_insert. by case_decide. }
  split; [|split].
  - destruct (decide (statusOf (createAppointment uuid createdNow updatedNow
                                  body w).1 = 201%Z)) as [H201|Hno].
    + destruct (createAppointment_inv _ _ _ _ _ H201)
        as (it & d & dt & tm & _ & _ & _ & _ & Heq & _).
      rewrite Heq. apply Hins.
    + by rewrite createAppointment_unchanged.
  - destruct (decide (statusOf (updateAppointment now id updates w).1
                      = 200%Z)) as [H200|Hno].
    + destruct (updateAppointment_200 _ _ _ _ H200) as [new ->]. apply Hins.
    + by rewrite updateAppointment_unchanged.
  - rewrite cancelAppointment_eq. apply Hins.
Qed.

Lemma records_are_never_deleted_witness :
  is_Some (Appointments (cancelAppointment "t2" "a-1" ∅ booked1).2 !! "a-1").
Proof.
  apply (records_are_never_deleted "a-2" "t1" "t1" sampleBody "t2" "a-1"
           sameSlot ∅ booked1 "a-1").
  by_compute.
Defined.

(** ** Cancel *)

Lemma holdsSlot_cancel (now id : string) (body : item) (w : World)
    (id' d dt : string) (tm : value) :
  holdsSlot (Appointments (cancelAppointment now id body w).2) id' d dt tm
  ↔ holdsSlot (Appointments w) id' d dt tm.
Proof.
  rewrite cancelAppointment_eq. cbv zeta.
  cbn [snd withAppointments Appointments].
  destruct (decide (id' = id)) as [->|Hne];
    [|by apply holdsSlot_insert_ne].
  rewrite holdsSlot_insert_eq. rewrite !lookup_insert_ne by done.
  unfold holdsSlot.
  destruct (Appointments w !! id) as [old|]; simpl.
  - split; [intros ?; by exists old|by intros (? & [= <-] & ?)].
  - rewrite lookup_empty. split; [by intros [? _]|by intros (? & ? & _)].
Qed.

(** X6: Cancel changes the result of no conflict check, for any slot and
    any excluded identifier; so a Create that is answered 409 before a Cancel
    is answered 409 after it, and Cancel keeps a store free of double
    bookings free of them. *)
Theorem cancel_changes_no_conflict_check (now id : string) (body : item)
    (w : World) (doctorId date time : option value) (ex : option string) :
  hasConflict (Appointments (cancelAppointment now id body w).2)
    doctorId date time ex
  = hasConflict (Appointments w) doctorId date time ex
  ∧ (noDoubleBooking (Appointments w) →
     noDoubleBooking (Appointments (cancelAppointment now id body w).2)).
Proof.
  split.
  - apply eq_true_iff_eq. rewrite !hasConflict_spec.
    by setoid_rewrite holdsSlot_cancel.
  - intros Hinv id1 id2 d dt tm H1 H2.
    apply holdsSlot_cancel in H1, H2. by apply (Hinv _ _ d dt tm).
Qed.

Lemma cancel_changes_no_conflict_check_witness :
  hasConflict (Appointments cancelled1) (Some (VStr "d-1"))
    (Some (VStr "2024-01-15")) (Some (VStr "10:00")) None = true
  ∧ noDoubleBooking (Appointments (cancelAppointment "t0" "a-9" ∅ clinic).2).
Proof.
  split.
  - unfold cancelled1.
    rewrite (proj1 (cancel_changes_no_conflict_check "t2" "a-1" ∅ booked1
                      _ _ _ _)).
    by_compute.
  - apply (proj2 (cancel_changes_no_conflict_check "t0" "a-9" ∅ clinic
                    None None None None)).
    apply noDoubleBooking_empty.
Defined.

(** X7: Cancel of a stored appointment is answered 200; the record then has
    status [cancelled], the clock reading as [updatedAt], and as
    [cancellationReason] the reason of the request, or [No reason provided]
    when the request has none or an empty one; every other attribute of the
    record and every other record are as before. *)
Theorem cancel_sets_three_attributes (now id : string) (body : item)
    (w : World) (old : item) :
  Appointments w !! id = Some old →
  ∃ new,
    cancelAppointment now id body w
    = (Success 200 (keyed "appointmentId" id new),
       withAppointments w (<[id := new]> (Appointments w)))
    ∧ new !! "status" = Some (VStr "cancelled")
    ∧ new !! "updatedAt" = Some (VStr now)
    ∧ (truthy (body !! "cancellationReason") = true →
       new !! "cancellationReason" = body !! "cancellationReason")
    ∧ (truthy (body !! "cancellationReason") = false →
       new !! "cancellationReason" = Some (VStr "No reason provided"))
    ∧ (∀ k, k ≠ "status" → k ≠ "cancellationReason" → k ≠ "updatedAt" →
            new !! k = old !! k)
    ∧ (∀ id', id' ≠ id →
         Appointments (cancelAppointment now id body w).2 !! id'
         = Appointments w !! id').
Proof.
  intros Hold. rewrite cancelAppointment_eq. cbv zeta. rewrite Hold.
  eexists. split; [reflexivity|]. simpl.
  split; [by rewrite !lookup_insert_ne, lookup_insert_eq by done|].
  split; [by rewrite lookup_insert_eq|].
  split; [|split; [|split]].
  - intros Ht. rewrite lookup_insert_ne, lookup_insert_eq by done.
    unfold orDefault. rewrite Ht. by destruct (body !! "cancellationReason").
  - intros Ht. rewrite lookup_insert_ne, lookup_insert_eq by done.
    unfold orDefault. rewrite Ht. by destruct (body !! "cancellationReason").
  - intros k H1 H2 H3. by rewrite !lookup_insert_ne.
  - intros id' Hne. by rewrite lookup_insert_ne.
Qed.

Lemma cancel_sets_three_attributes_witness :
  statusOf (cancelAppointment "t2" "a-1" ∅ booked1).1 = 200%Z
  ∧ Appointments cancelled1 !! "a-1" ≫= (.!! "cancellationReason")
    = Some (VStr "No reason provided").
Proof.
  destruct (cancel_sets_three_attributes "t2" "a-1" ∅ booked1 a1Record)
    as (new & Heq & _ & _ & _ & Hdef & _); [by_compute|].
  unfold cancelled1. rewrite Heq. cbn [fst snd statusOf]. split; [done|].
  cbn [withAppointments Appointments]. rewrite lookup_insert_eq.
  cbn [mbind option_bind]. apply Hdef. by_compute.
Defined.

(** X8: Cancel is idempotent: a second Cancel with the same clock reading
    and request gives the answer and the store of the first. *)
Theorem cancel_is_idempotent (now id : string) (body : item) (w : World) :
  cancelAppointment now id body (cancelAppointment now id body w).2
  = cancelAppointment now id body w.
Proof.
  rewrite !cancelAppointment_eq. cbv zeta.
  cbn [snd withAppointments Appointments Doctors].
  set (r := orDefault _ _). set (old := default ∅ (Appointments w !! id)).
  rewrite lookup_insert_eq. cbn [default from_option]. unfold Datatypes.id.
  assert (Hnew :
    <["updatedAt" := VStr now]>
      (<["cancellationReason" := r]>
         (<["status" := VStr "cancelled"]>
            (<["updatedAt" := VStr now]>
               (<["cancellationReason" := r]>
                  (<["status" := VStr "cancelled"]> old)))))
    = <["updatedAt" := VStr now]>
        (<["cancellationReason" := r]>
           (<["status" := VStr "cancelled"]> old))).
  { apply map_eq. intros k. rewrite !lookup_insert.
    repeat case_decide; done. }
  rewrite Hnew. unfold withAppointments. simpl.
  by rewrite insert_insert_eq.
Qed.

(** ** Update *)

(** X9: an Update of a stored appointment whose payload has the key
    [updatedAt] never succeeds: the update expression then assigns
    [updatedAt] twice, the store rejects it, and the answer is 500 (or 409
    when the conflict check fails first); nothing is written. *)
Theorem update_with_updatedAt_key_fails (now id : string) (updates : item)
    (w : World) :
  is_Some (Appointments w !! id) →
  is_Some (updates !! "updatedAt") →
  updateAppointment now id updates w
  = (Failure 409 "Time slot is already booked", w)
  ∨ updateAppointment now id updates w
    = (Failure 500 "Error updating appointment", w).
Proof.
  intros [old Hold] Hkey. unfold updateAppointment.
  rewrite (GetCommand_Some _ _ _ Hold). cbv zeta.
  destruct (_ && negb _); [by right|].
  destruct (if _ : bool then _ else false); [by left|]. right.
  destruct (UpdateCommand _ _ _ _) as [[tbl attributes]|] eqn:Hcmd; [|done].
  apply UpdateCommand_Some in Hcmd as (acts & Hacts & Hnd & _).
  destruct (buildUpdate_actions now updates) as (V & Hacts' & _).
  rewrite Hacts' in Hacts. injection Hacts as <-.
  rewrite fmap_cons in Hnd.
  apply NoDup_cons in Hnd as [Hfresh _]. destruct Hfresh. simpl.
  apply elem_of_mutableEntries_fst. by repeat split.
Qed.

Lemma update_with_updatedAt_key_fails_witness :
  updateAppointment "t2" "a-1" (<["updatedAt" := VStr "t9"]> notePatch)
    booked1
  = (Failure 500 "Error updating appointment", booked1).
Proof.
  destruct (update_with_updatedAt_key_fails "t2" "a-1"
              (<["updatedAt" := VStr "t9"]> notePatch) booked1) as [H|H];
    [by_compute|by_compute| |exact H].
  assert (statusOf (updateAppointment "t2" "a-1"
                      (<["updatedAt" := VStr "t9"]> notePatch) booked1).1
          ≠ 409%Z) as Hno by by_compute.
  rewrite H in Hno. by destruct Hno.
Defined.

Lemma mutableEntries_nil (updates : item) :
  (∀ k, is_Some (updates !! k) → k = "appointmentId" ∨ k = "createdAt") →
  mutableEntries updates = [].
Proof.
  intros Honly. unfold mutableEntries.
  destruct (filter _ _) as [|[k v] l] eqn:Hf; [done|].
  assert ((k, v) ∈ mutableEntries updates) as Hin
    by (unfold mutableEntries; rewrite Hf; by left).
  apply elem_of_mutableEntries in Hin as (Hl & H1 & H2).
  destruct (Honly k ltac:(by eexists)); done.
Qed.

(** X19: an Update of a stored appointment whose payload supplies no field
    other than [appointmentId] and [createdAt], as the empty payload does, is
    answered 500 and writes nothing: the map of expression attribute names
    of the request is empty, and the store rejects such a request. *)
Theorem update_without_fields_fails (now id : string) (updates : item)
    (w : World) :
  is_Some (Appointments w !! id) →
  (∀ k, is_Some (updates !! k) → k = "appointmentId" ∨ k = "createdAt") →
  updateAppointment now id updates w
  = (Failure 500 "Error updating appointment", w).
Proof.
  intros [old Hold] Honly. unfold updateAppointment.
  rewrite (GetCommand_Some _ _ _ Hold). cbv zeta.
  assert (∀ k, k ≠ "appointmentId" → k ≠ "createdAt" → updates !! k = None)
    as Hnone.
  { intros k H1 H2. destruct (updates !! k) eqn:Hk; [|done].
    destruct (Honly k ltac:(by eexists)); done. }
  rewrite !Hnone by done. cbn [truthy orb andb].
  destruct (foldl_addKey (map_to_list updates)
              {| UpdateExpression := [("updatedAt", ":updatedAt")];
                 ExpressionAttributeNames := ∅;
                 ExpressionAttributeValues := {[":updatedAt" := VStr now]} |})
    as (_ & Hn & _).
  fold (mutableEntries updates) in Hn. fold (buildUpdate now updates) in Hn.
  rewrite (mutableEntries_nil _ Honly) in Hn. cbn in Hn.
  unfold UpdateCommand. rewrite Hn. reflexivity.
Qed.

Lemma update_without_fields_fails_witness :
  updateAppointment "t2" "a-1" ∅ booked1
  = (Failure 500 "Error updating appointment", booked1).
Proof.
  apply update_without_fields_fails.
  - by_compute.
  - intros k [v Hv]. by rewrite lookup_empty in Hv.
Defined.

(** X20: the conflict check of Update needs the doctor, the date and the
    time of the slot.  When the payload supplies a date or a time and one of
    the three is neither non-empty in the payload nor an attribute of the
    stored record, as for a record that a Cancel has created, a value of the
    conflict query is [undefined]; the query fails, the answer is 500 and
    nothing is written. *)
Theorem update_without_slot_fails (now id : string) (updates : item)
    (w : World) (stored : item) :
  Appointments w !! id = Some stored →
  truthy (updates !! "appointmentDate")
  || truthy (updates !! "appointmentTime") = true →
  jsOr (updates !! "doctorId") (stored !! "doctorId") = None
  ∨ jsOr (updates !! "appointmentDate") (stored !! "appointmentDate") = None
  ∨ jsOr (updates !! "appointmentTime") (stored !! "appointmentTime") = None →
  updateAppointment now id updates w
  = (Failure 500 "Error updating appointment", w).
Proof.
  intros Hstored Hguard Hmissing. unfold updateAppointment.
  rewrite (GetCommand_Some _ _ _ Hstored). cbv zeta.
  rewrite !keyed_lookup_ne by done. rewrite Hguard. cbn [andb].
  assert (validQuery
            (updateConflictCommand
               (jsOr (updates !! "doctorId") (stored !! "doctorId"))
               (jsOr (updates !! "appointmentDate")
                     (stored !! "appointmentDate"))
               (jsOr (updates !! "appointmentTime")
                     (stored !! "appointmentTime")) id) = false) as ->;
    [|done].
  unfold validQuery, updateConflictCommand.
  cbn [KeyConditionExpression FilterExpression validKeyCondition validFilter].
  destruct Hmissing as [->|[->| ->]]; cbn [isStr bound andb].
  - done.
  - apply andb_false_intro1, andb_false_r.
  - apply andb_false_r.
Qed.

Lemma update_without_slot_fails_witness :
  updateAppointment "t3" "a-9"
    (object [("appointmentTime", Some (VStr "10:00"))])
    (cancelAppointment "t0" "a-9" ∅ clinic).2
  = (Failure 500 "Error updating appointment",
     (cancelAppointment "t0" "a-9" ∅ clinic).2).
Proof.
  apply (update_without_slot_fails "t3" "a-9" _ _
           (object [("status", Some (VStr "cancelled"));
                    ("cancellationReason",
                     Some (VStr "No reason provided"));
                    ("updatedAt", Some (VStr "t0"))])).
  - by_compute.
  - reflexivity.
  - left. reflexivity.
Defined.

Lemma UpdateCommand_index (k : string) (tbl : gmap string item)
    (id : string) (u : Update) (acts : list (string * value)) :
  is_Some (UpdateCommand k tbl id u) →
  mapM (resolveAction u) (UpdateExpression u) = Some acts →
  forallb validIndexKey acts = true.
Proof.
  unfold UpdateCommand. intros [r Hr] Hacts. rewrite Hacts in Hr.
  destruct (_ && _); [|discriminate].
  destruct (bool_decide _); [|discriminate]. cbn [andb] in Hr.
  by destruct (forallb _ _).
Qed.

(** X21: an Update of a stored appointment whose payload sets [doctorId] or
    [appointmentDate] to [null] never succeeds: both are key attributes of
    the index by doctor and date, for which the store accepts only non-empty
    strings, so the answer is 500 (or 409 when the conflict check fails
    first), and nothing is written. *)
Theorem update_with_null_index_key_fails (now id : string) (updates : item)
    (w : World) :
  is_Some (Appointments w !! id) →
  updates !! "doctorId" = Some VNull
  ∨ updates !! "appointmentDate" = Some VNull →
  updateAppointment now id updates w
  = (Failure 409 "Time slot is already booked", w)
  ∨ updateAppointment now id updates w
    = (Failure 500 "Error updating appointment", w).
Proof.
  intros [old Hold] Hnull. unfold updateAppointment.
  rewrite (GetCommand_Some _ _ _ Hold). cbv zeta.
  destruct (_ && negb _); [by right|].
  destruct (if _ : bool then _ else false); [by left|]. right.
  destruct (UpdateCommand _ _ _ _) as [[tbl attributes]|] eqn:Hcmd; [|done].
  destruct (buildUpdate_actions now updates) as (V & Hacts & _).
  pose proof (UpdateCommand_index _ _ _ _ _ ltac:(by eexists) Hacts) as Hok.
  cbn [forallb] in Hok. apply andb_true_iff in Hok as [_ Hok].
  rewrite forallb_forall in Hok.
  assert (∃ key, (key = "doctorId" ∨ key = "appointmentDate")
                 ∧ (key, VNull) ∈ mutableEntries updates)
    as (key & Hkey & Hin).
  { destruct Hnull as [Hn|Hn]; eexists; (split; [|
      apply elem_of_mutableEntries; split; [exact Hn|done]]); tauto. }
  apply list_elem_of_In, Hok in Hin.
  destruct Hkey as [-> | ->]; discriminate.
Qed.

Lemma update_with_null_index_key_fails_witness :
  updateAppointment "t2" "a-1" (<["doctorId" := VNull]> notePatch) booked1
  = (Failure 500 "Error updating appointment", booked1).
Proof.
  destruct (update_with_null_index_key_fails "t2" "a-1"
              (<["doctorId" := VNull]> notePatch) booked1) as [H|H];
    [by_compute|left; by_compute| |exact H].
  assert (statusOf (updateAppointment "t2" "a-1"
                      (<["doctorId" := VNull]> notePatch) booked1).1
          ≠ 409%Z) as Hno by by_compute.
  rewrite H in Hno. by destruct Hno.
Defined.

(** ** Available slots *)

Lemma elem_of_candidateTimes (n : nat) (s d t : Z) :
  t ∈ candidateTimes s d n ↔ ∃ k, k < n ∧ t = (s + Z.of_nat k * d)%Z.
Proof.
  revert s. induction n as [|n IH]; intros s; simpl.
  - rewrite elem_of_nil. split; [done|]. intros (k & Hk & _). lia.
  - rewrite elem_of_cons, IH. split.
    + intros [->|(k & Hk & ->)].
      * exists 0. split; lia.
      * exists (S k). split; lia.
    + intros ([|k] & Hk & ->).
      * left. lia.
      * right. exists k. split; lia.
Qed.

Lemma filter_fmap {A B} (f : A → B) (P : B → Prop) `{∀ x, Decision (P x)}
    (l : list A) :
  filter P (f <$> l) = f <$> filter (λ x, P (f x)) l.
Proof.
  induction l as [|x l IH]; [done|].
  rewrite fmap_cons, !filter_cons, IH. by case_decide.
Qed.

Lemma sorted_candidateTimes (P : Z → Prop) `{∀ x, Decision (P x)}
    (n : nat) (s d : Z) :
  (0 < d)%Z → StronglySorted Z.lt (filter P (candidateTimes s d n)).
Proof.
  intros Hd. revert s. induction n as [|n IH]; intros s.
  - constructor.
  - simpl. rewrite filter_cons. case_decide; [|apply IH].
    constructor; [apply IH|].
    apply Forall_forall. intros t Hin.
    apply list_elem_of_filter in Hin as [_ Hin].
    apply elem_of_candidateTimes in Hin as (k & Hk & ->). nia.
Qed.





(** X12: when the runtime reads the end of the working hours as a time at or
    before their start, as for a night shift from 22:00 to 06:00, or does not
    read one of the two as a date at all, there is no slot: the loop body is
    never entered, for every slot duration and every list of booked
    times. *)
Theorem empty_window_gives_no_slots (rt : Runtime) (fuel : nat)
    (wh : WorkingHours) (d : Z) (bookedSlots : list (option value))
    (date : string) :
  (∀ s e, newDate rt (date +:+ "T" +:+ start wh) = Some s →
          newDate rt (date +:+ "T" +:+ end_ wh) = Some e → (e ≤ s)%Z) →
  computeAvailableSlots rt (S fuel) wh d bookedSlots date = Some [].
Proof.
  intros Hwin. unfold computeAvailableSlots. cbv zeta.
  destruct (newDate rt (date +:+ "T" +:+ start wh)) as [s|]; [|done].
  destruct (newDate rt (date +:+ "T" +:+ end_ wh)) as [e|]; [|done].
  apply slotLoop_done. intros t [= <-]. by apply Hwin.
Qed.

Lemma empty_window_gives_no_slots_witness :
  computeAvailableSlots utc 1 nightShift 30 [] "2024-01-15" = Some [].
Proof.
  apply empty_window_gives_no_slots.
  intros s e Hs He. vm_compute in Hs, He.
  injection Hs as <-. injection He as <-. lia.
Defined.

(** ** Queries by doctor *)

(** X13: without a status filter, the by-doctor query answers exactly the
    stored appointments that carry the doctor's identifier and a date, and,
    when a date is asked for, that date; so the answer for a doctor without
    appointments is the empty list, and a record without a date is never
    listed. *)
Theorem doctor_appointments_listing (doctorId : string)
    (date status : option value) (w : World) (items : list item) :
  truthy status = false →
  getDoctorAppointments doctorId date status w = Success 200 items →
  ∀ it, it ∈ items ↔
    ∃ id stored dt,
      Appointments w !! id = Some stored
      ∧ it = keyed "appointmentId" id stored
      ∧ stored !! "doctorId" = Some (VStr doctorId)
      ∧ stored !! "appointmentDate" = Some (VStr dt)
      ∧ (truthy date = true → date = Some (VStr dt)).
Proof.
  unfold getDoctorAppointments. intros -> [= <-] it.
  rewrite elem_of_QueryCommand. split.
  - intros [Hsel (id & stored & Hl & ->)].
    rewrite selects_conflict in Hsel by reflexivity.
    destruct Hsel as ([_ Hdt] & Hkey & _).
    apply isStr_true in Hdt as [dt Hdt].
    exists id, stored, dt. split; [done|]. split; [done|].
    destruct (truthy date) eqn:Htr.
    + apply evalCond_CAnd in Hkey as [Hk1 Hk2].
      apply evalCond_CEq in Hk1 as [_ Hk1], Hk2 as [_ Hk2].
      rewrite keyed_lookup_ne in Hk1, Hk2 by done.
      split; [done|]. split; [done|]. intros _. congruence.
    + apply evalCond_CEq in Hkey as [_ Hk1].
      rewrite keyed_lookup_ne in Hk1 by done. by repeat split.
  - intros (id & stored & dt & Hl & -> & Hd & Hdt & Hdate).
    split; [|by eauto].
    rewrite selects_conflict by reflexivity.
    rewrite !isStr_true. split; [by eauto|]. split; [|done].
    destruct (truthy date) eqn:Htr.
    + rewrite evalCond_CAnd, !evalCond_CEq.
      rewrite !keyed_lookup_ne by done. rewrite (Hdate eq_refl).
      by repeat split.
    + rewrite evalCond_CEq, keyed_lookup_ne by done. by split.
Qed.

Lemma doctor_appointments_listing_witness :
  keyed "appointmentId" "a-1" a1Record
  ∈ default [] (dataOf (getDoctorAppointments "d-1"
                          (Some (VStr "2024-01-15")) None booked1)).
Proof.
  apply (doctor_appointments_listing "d-1" (Some (VStr "2024-01-15")) None
           booked1 _ eq_refl eq_refl).
  exists "a-1", a1Record, "2024-01-15".
  split; [by_compute|]. split; [done|]. split; [by_compute|].
  split; [by_compute|done].
Defined.

(** ** Update and the store *)

(** What a 200 answer of Update tells: the conflict check, when it was made,
    was negative, and the record written has the clock reading, the entries
    of the payload other than the identifier and the creation time, and the
    stored value of every other attribute. *)
Lemma updateAppointment_inv (now id : string) (updates : item) (w : World) :
  statusOf (updateAppointment now id updates w).1 = 200%Z →
  ∃ old new,
    Appointments w !! id = Some old
    ∧ updateAppointment now id updates w
      = (Success 200 (keyed "appointmentId" id new),
         withAppointments w (<[id := new]> (Appointments w)))
    ∧ (truthy (updates !! "appointmentDate")
       || truthy (updates !! "appointmentTime") = true →
       hasConflict (Appointments w)
         (jsOr (updates !! "doctorId") (old !! "doctorId"))
         (jsOr (updates !! "appointmentDate") (old !! "appointmentDate"))
         (jsOr (updates !! "appointmentTime") (old !! "appointmentTime"))
         (Some id) = false)
    ∧ (∀ k v, updates !! k = Some v →
              k ≠ "appointmentId" → k ≠ "createdAt" → new !! k = Some v)
    ∧ (∀ k, updates !! k = None → k ≠ "updatedAt" → new !! k = old !! k).
Proof.
  unfold updateAppointment, GetCommand. intros Hst.
  destruct (Appointments w !! id) as [old|] eqn:Hold; [|discriminate].
  cbn [fmap option_fmap option_map] in *. cbv zeta in *.
  rewrite !keyed_lookup_ne in * by done.
  destruct (_ && negb _); [discriminate|].
  assert (Hcheck :
    truthy (updates !! "appointmentDate")
    || truthy (updates !! "appointmentTime") = true →
    hasConflict (Appointments w)
      (jsOr (updates !! "doctorId") (old !! "doctorId"))
      (jsOr (updates !! "appointmentDate") (old !! "appointmentDate"))
      (jsOr (updates !! "appointmentTime") (old !! "appointmentTime"))
      (Some id) = false).
  { intros Hguard. rewrite Hguard in Hst.
    by destruct (hasConflict _ _ _ _ _). }
  destruct (if _ : bool then _ else false); [discriminate|].
  destruct (UpdateCommand _ _ _ _) as [[tbl attributes]|] eqn:Hcmd;
    [|discriminate].
  apply UpdateCommand_Some in Hcmd as (acts & Hacts & Hnd & Hkey & -> & ->).
  destruct (buildUpdate_actions now updates) as (V & Hacts' & HV).
  rewrite Hacts' in Hacts. injection Hacts as <-. rewrite Hold.
  rewrite fmap_cons in Hnd. apply NoDup_cons in Hnd as [Hfresh Hnd].
  cbn [default foldl]. exists old. eexists.
  split; [done|]. split; [reflexivity|]. split; [done|]. split.
  - intros k v Hk H1 H2.
    apply (foldl_insert_in fst snd _ _ (k, v)); [done|].
    by apply elem_of_mutableEntries.
  - intros k Hk Hne.
    rewrite (foldl_insert_notin fst snd).
    + unfold applySet. simpl. by rewrite lookup_insert_ne.
    + intros [k' v'] Hin Heq. simpl in Heq. subst k'.
      apply elem_of_mutableEntries in Hin as [Hin _]. congruence.
Qed.

Lemma jsOr_None (b : option value) : jsOr None b = b.
Proof. done. Qed.

Lemma jsOr_truthy (a b : option value) : truthy a = true → jsOr a b = a.
Proof. intros H. unfold jsOr. by rewrite H. Qed.

(** X14: Update keeps the store free of double bookings when each of
    [doctorId], [appointmentDate] and [appointmentTime] is either absent
    from the payload or non-empty in it, and a payload that has [doctorId]
    also supplies a date or a time (so that the conflict check is made). *)
Theorem update_keeps_no_double_booking (now id : string) (updates : item)
    (w : World) :
  noDoubleBooking (Appointments w) →
  (∀ k, k = "doctorId" ∨ k = "appointmentDate" ∨ k = "appointmentTime" →
        updates !! k = None ∨ truthy (updates !! k) = true) →
  (is_Some (updates !! "doctorId") →
   truthy (updates !! "appointmentDate")
   || truthy (updates !! "appointmentTime") = true) →
  noDoubleBooking (Appointments (updateAppointment now id updates w).2).
Proof.
  intros Hinv Hkeys Hdoc.
  destruct (decide (statusOf (updateAppointment now id updates w).1
                    = 200%Z)) as [H200|Hno];
    [|by rewrite updateAppointment_unchanged].
  destruct (updateAppointment_inv _ _ _ _ H200)
    as (old & new & Hold & -> & Hcheck & Hsup & Hkeep).
  cbn [snd withAppointments Appointments].
  assert (Heff : ∀ k,
            k = "doctorId" ∨ k = "appointmentDate" ∨ k = "appointmentTime" →
            new !! k = jsOr (updates !! k) (old !! k)).
  { intros k Hk. destruct (Hkeys k Hk) as [Hnone|Htr].
    - rewrite Hnone, jsOr_None. apply Hkeep; [done|].
      destruct Hk as [->|[->| ->]]; done.
    - rewrite jsOr_truthy by done.
      apply truthy_Some in Htr as (x & Hx & _). rewrite Hx.
      apply Hsup; [done| |]; destruct Hk as [->|[->| ->]]; done. }
  assert (Hself : ∀ id' d dt tm,
            id' ≠ id →
            holdsSlot (<[id := new]> (Appointments w)) id d dt tm →
            holdsSlot (Appointments w) id' d dt tm → False).
  { intros id' d dt tm Hne Hnew Hother.
    apply holdsSlot_insert_eq in Hnew as (Hd & Hdt & Htm).
    rewrite Heff in Hd, Hdt, Htm by tauto.
    destruct (truthy (updates !! "appointmentDate")
              || truthy (updates !! "appointmentTime")) eqn:Hguard.
    - specialize (Hcheck eq_refl). rewrite Hd, Hdt, Htm in Hcheck.
      assert (hasConflict (Appointments w) (Some (VStr d)) (Some (VStr dt))
                (Some tm) (Some id) = true) as Hc; [|congruence].
      apply hasConflict_spec. exists id', d, dt, tm.
      repeat split; try done. congruence.
    - apply orb_false_iff in Hguard as [Hg1 Hg2].
      assert (updates !! "doctorId" = None) as Hn0.
      { destruct (updates !! "doctorId") eqn:E; [|done].
        specialize (Hdoc ltac:(by eexists)). discriminate. }
      assert (updates !! "appointmentDate" = None) as Hn1.
      { destruct (Hkeys "appointmentDate" ltac:(tauto)); congruence. }
      assert (updates !! "appointmentTime" = None) as Hn2.
      { destruct (Hkeys "appointmentTime" ltac:(tauto)); congruence. }
      rewrite Hn0, Hn1, Hn2, !jsOr_None in *.
      apply Hne. apply (Hinv id' id d dt tm); [done|]. by exists old. }
  intros id1 id2 d dt tm H1 H2.
  destruct (decide (id1 = id)) as [->|Hne1],
           (decide (id2 = id)) as [->|Hne2]; [done| | |].
  - apply holdsSlot_insert_ne in H2; [|done].
    by destruct (Hself id2 d dt tm Hne2 H1 H2).
  - apply holdsSlot_insert_ne in H1; [|done].
    by destruct (Hself id1 d dt tm Hne1 H2 H1).
  - apply holdsSlot_insert_ne in H1; [|done].
    apply holdsSlot_insert_ne in H2; [|done]. by apply (Hinv _ _ d dt tm).
Qed.

Lemma noDoubleBooking_singleton (id : string) (it : item) :
  noDoubleBooking {[id := it]}.
Proof.
  intros id1 id2 d dt tm (it1 & Hl1 & _) (it2 & Hl2 & _).
  apply lookup_singleton_Some in Hl1 as [<- _].
  by apply lookup_singleton_Some in Hl2 as [<- _].
Qed.

Lemma update_keeps_no_double_booking_witness :
  noDoubleBooking
    (Appointments (updateAppointment "t2" "a-1" sameSlot booked1).2).
Proof.
  apply update_keeps_no_double_booking.
  - rewrite booked1_table. apply noDoubleBooking_singleton.
  - intros k [->|[->| ->]]; [left|right|right]; by_compute.
  - intros _. by_compute.
Defined.

(** X15: a successful write is read back: after an Update answered 200, and
    after every Cancel, [getAppointmentById] for the identifier answers 200
    with the record the write answered. *)
Theorem write_then_get (now id : string) (updates body : item) (w : World) :
  (statusOf (updateAppointment now id updates w).1 = 200%Z →
   Some (getAppointmentById id (updateAppointment now id updates w).2)
   = Success 200 <$> dataOf (updateAppointment now id updates w).1)
  ∧ Some (getAppointmentById id (cancelAppointment now id body w).2)
    = Success 200 <$> dataOf (cancelAppointment now id body w).1.
Proof.
  split.
  - intros H200.
    destruct (updateAppointment_inv _ _ _ _ H200)
      as (old & new & _ & -> & _).
    unfold getAppointmentById, GetCommand. simpl.
    by rewrite lookup_insert_eq.
  - rewrite cancelAppointment_eq. cbv zeta.
    unfold getAppointmentById, GetCommand. simpl.
    by rewrite lookup_insert_eq.
Qed.

Lemma write_then_get_witness :
  Some (getAppointmentById "a-1"
          (updateAppointment "t2" "a-1" notePatch booked1).2)
  = Success 200 <$> dataOf (updateAppointment "t2" "a-1" notePatch booked1).1.
Proof.
  apply (proj1 (write_then_get "t2" "a-1" notePatch ∅ booked1)).
  by_compute.
Defined.

(** ** Booking and availability *)

Lemma bookedAt_insert_fresh (tbl : gmap string item) (uuid : string)
    (it : item) (doctorId date tm ts : string) :
  tbl !! uuid = None →
  it !! "doctorId" = Some (VStr doctorId) →
  it !! "appointmentDate" = Some (VStr date) →
  it !! "appointmentTime" = Some (VStr tm) →
  bookedAt (<[uuid := it]> tbl) doctorId date ts
  ↔ ts = tm ∨ bookedAt tbl doctorId date ts.
Proof.
  intros Hfresh Hd Hdt Htm. unfold bookedAt. split.
  - intros (id & it' & Hl & Hd' & Hdt' & Htm').
    destruct (decide (id = uuid)) as [->|Hne].
    + rewrite lookup_insert_eq in Hl. injection Hl as <-. left. congruence.
    + rewrite lookup_insert_ne in Hl by done. right. by exists id, it'.
  - intros [->|(id & it' & Hl & Hrest)].
    + exists uuid, it. by rewrite lookup_insert_eq.
    + exists id, it'. rewrite lookup_insert_ne; [done|congruence].
Qed.

(** X16: booking removes exactly the booked time from the available slots:
    after a Create answered 201 for a doctor and a date, under an identifier
    that was not in use, the available slots of that doctor and date are the
    ones before the Create without the time of the request, in the same
    order. *)
Theorem booking_removes_exactly_its_slot (rt : Runtime) (fuel : nat)
    (uuid createdNow updatedNow : string) (body : item) (w : World)
    (doctorId date : string) (data : SlotsData) :
  statusOf (createAppointment uuid createdNow updatedNow body w).1 = 201%Z →
  Appointments w !! uuid = None →
  body !! "doctorId" = Some (VStr doctorId) →
  body !! "appointmentDate" = Some (VStr date) →
  getAvailableSlots rt fuel doctorId (Some date) w
  = Some (Success 200 data) →
  ∃ data',
    getAvailableSlots rt fuel doctorId (Some date)
      (createAppointment uuid createdNow updatedNow body w).2
    = Some (Success 200 data')
    ∧ availableSlots data'
      = filter (λ ts, Some (VStr ts) ≠ body !! "appointmentTime")
               (availableSlots data)
    ∧ slotsDuration data' = slotsDuration data.
Proof.
  intros H201 Hfresh Hbd Hbdt Hget.
  destruct (createAppointment_inv _ _ _ _ _ H201)
    as (it & d & dt & tm & Hd & Hdt & Htm & _ & -> & _ & Hid & Hidt & Hitm
        & _).
  assert (d = doctorId) as -> by congruence.
  assert (dt = date) as -> by congruence.
  cbn [snd]. unfold getAvailableSlots in *.
  destruct date as [|c date]; [discriminate|].
  cbn [withAppointments Doctors Appointments].
  destruct (Doctors w !! doctorId) as [doctorData|]; [|discriminate].
  destruct (workingHours doctorData) as [wh|]; [|discriminate].
  rewrite computeAvailableSlots_filter in Hget.
  rewrite computeAvailableSlots_filter.
  destruct (computeAvailableSlots rt fuel wh _ [] _) as [grid|];
    [|discriminate].
  cbn [fmap option_fmap option_map] in *. injection Hget as <-.
  eexists. split; [reflexivity|]. cbn [availableSlots slotsDuration].
  split; [|done]. rewrite Htm, list_filter_filter.
  apply filter_ext_in. intros ts _. unfold includes.
  rewrite !bool_decide_eq_false, !booked_elem.
  rewrite (bookedAt_insert_fresh _ _ _ _ _ tm) by done.
  split.
  - intros Hno. split; [|tauto]. intros [= ->]. tauto.
  - intros [Hne Hno] [->|Hb]; [by destruct Hne|done].
Qed.

Lemma booking_removes_exactly_its_slot_witness :
  ∃ data',
    getAvailableSlots utc 17 "d-1" (Some "2024-01-15") booked1
    = Some (Success 200 data')
    ∧ availableSlots data'
      = ["09:00"; "09:30"; "10:30"; "11:00"; "11:30"; "12:00"; "12:30";
         "13:00"; "13:30"; "14:00"; "14:30"; "15:00"; "15:30"; "16:00";
         "16:30"].
Proof.
  destruct (booking_removes_exactly_its_slot utc 17 "a-1" "t0" "t0" sampleBody
              clinic "d-1" "2024-01-15"
              {| slotsDate := "2024-01-15";
                 availableSlots :=
                   ["09:00"; "09:30"; "10:00"; "10:30"; "11:00"; "11:30";
                    "12:00"; "12:30"; "13:00"; "13:30"; "14:00"; "14:30";
                    "15:00"; "15:30"; "16:00"; "16:30"];
                 slotsDuration := 30 |})
    as (data' & Hget & Hslots & _);
    [by_compute|reflexivity|by_compute|by_compute|vm_compute; reflexivity|].
  exists data'. split; [exact Hget|]. rewrite Hslots.
  cbn [availableSlots].
  assert (sampleBody !! "appointmentTime" = Some (VStr "10:00")) as ->
    by by_compute.
  vm_compute. reflexivity.
Defined.

(** ** Booking and the schedule *)

(** Every appointment that is filed is found under its date. *)
Lemma filed_appointment_found (data : list item) (it : item) :
  it ∈ data →
  ∃ l, foldl fileAppointment ∅ data !! dateKey it = Some l ∧ it ∈ l.
Proof.
  intros Hin. rewrite foldl_fileAppointment, lookup_empty.
  assert (it ∈ filter (λ x, dateKey x = dateKey it) data) as Hf
    by (by apply list_elem_of_filter).
  destruct (filter _ data) as [|b r]; [by apply not_elem_of_nil in Hf|].
  by eexists.
Qed.



(** ** Doctor statistics *)

(** A lower-cased key is never the name of one of the two other properties
    of the statistics object. *)
Lemma toLowerCase_no_capital (s : string) :
  toLowerCase s ≠ "totalAppointments" ∧ toLowerCase s ≠ "byType".
Proof.
  assert (Hc : ∀ c, lowerChar c ≠ "A"%char ∧ lowerChar c ≠ "T"%char).
  { intros c. destruct c as [[] [] [] [] [] [] [] []]; by vm_compute. }
  split; intros Heq.
  - do 5 (destruct s as [|? s]; [discriminate|];
          simpl in Heq; injection Heq as ? Heq).
    destruct s as [|c s]; [discriminate|]. simpl in Heq.
    injection Heq as Heq _. by destruct (Hc c).
  - do 2 (destruct s as [|? s]; [discriminate|];
          simpl in Heq; injection Heq as ? Heq).
    destruct s as [|c s]; [discriminate|]. simpl in Heq.
    injection Heq as Heq _. by destruct (Hc c).
Qed.

(** The counters after a run over appointments that all have status
    [scheduled] or [cancelled]. *)
Lemma foldl_countAppointment (l : list item) (c b : gmap string num)
    (k : Z) (sch : bool) :
  Forall (λ it : item, it !! "status" = Some (VStr "scheduled")
                       ∨ it !! "status" = Some (VStr "cancelled")) l →
  c !! "pending" = Some (Num 0) →
  c !! "completed" = Some (Num 0) →
  c !! "cancelled" = Some (Num k) →
  c !! "scheduled" = (if sch then Some NaN else None) →
  ∃ c' b',
    foldl countAppointment (Some (c, b)) l = Some (c', b')
    ∧ c' !! "pending" = Some (Num 0)
    ∧ c' !! "completed" = Some (Num 0)
    ∧ c' !! "cancelled"
      = Some (Num (k + Z.of_nat
                         (length (filter
                                    (λ it : item,
                                       it !! "status"
                                       = Some (VStr "cancelled")) l))))
    ∧ c' !! "scheduled"
      = (if sch || bool_decide
                     (Exists (λ it : item,
                                it !! "status" = Some (VStr "scheduled")) l)
         then Some NaN else None).
Proof.
  intros Hall. revert c b k sch.
  induction Hall as [|it l Hit Hall IH]; intros c b k sch Hp Hc Hk Hs.
  - exists c, b. simpl. rewrite Z.add_0_r, orb_false_r. done.
  - cbn [foldl]. destruct Hit as [Hst|Hst].
    + unfold countAppointment at 2. rewrite Hst.
      change (toLowerCase "scheduled") with "scheduled".
      assert (countStatus c "scheduled" = <["scheduled" := NaN]> c) as ->.
      { unfold countStatus. cbn [String.eqb Ascii.eqb Bool.eqb].
        rewrite Hs. by destruct sch. }
      destruct (IH (<["scheduled" := NaN]> c) (countType b (typeKey it))
                  k true)
        as (c' & b' & Hrun & Hp' & Hc' & Hk' & Hs');
        [by rewrite lookup_insert_ne..|by rewrite lookup_insert_eq|].
      exists c', b'. split; [done|]. split; [done|]. split; [done|]. split.
      * rewrite Hk', filter_cons, decide_False; [done|]. rewrite Hst.
        discriminate.
      * rewrite Hs'. rewrite (bool_decide_eq_true_2 (Exists _ (it :: l)));
          [by rewrite orb_true_r|]. by left.
    + unfold countAppointment at 2. rewrite Hst.
      change (toLowerCase "cancelled") with "cancelled".
      assert (countStatus c "cancelled" = <["cancelled" := Num (k + 1)]> c)
        as ->.
      { unfold countStatus. cbn [String.eqb Ascii.eqb Bool.eqb].
        by rewrite Hk. }
      destruct (IH (<["cancelled" := Num (k + 1)]> c)
                  (countType b (typeKey it)) (k + 1)%Z sch)
        as (c' & b' & Hrun & Hp' & Hc' & Hk' & Hs');
        [by rewrite lookup_insert_ne..|by rewrite lookup_insert_eq
        |by rewrite lookup_insert_ne|].
      exists c', b'. split; [done|]. split; [done|]. split; [done|]. split.
      * rewrite Hk', filter_cons, decide_True by done. simpl length.
        do 2 f_equal. lia.
      * rewrite Hs'.
        assert (bool_decide
                  (Exists (λ it : item,
                             it !! "status" = Some (VStr "scheduled"))
                     (it :: l))
                = bool_decide
                    (Exists (λ it : item,
                               it !! "status" = Some (VStr "scheduled")) l))
          as ->; [|done].
        apply bool_decide_ext. rewrite Exists_cons. split; [|tauto].
        intros [Hbad|?]; [congruence|done].
Qed.

(** X18: the statistics of a doctor are computed for the range from
    [startDate], or today when it is absent or empty, to [endDate], or today.
    When the start of that range is after its end, as for a start date in
    the future without an end date, the store rejects the query and the
    answer is 500.  Otherwise, when the appointments in the range have the
    statuses Create and Cancel write, no appointment is counted as pending
    or completed: [totalAppointments] is their number, [cancelled] the
    number of the cancelled ones, [pending] and [completed] stay 0, and as
    soon as one appointment is [scheduled] the statistics get a property
    [scheduled] whose value is [NaN]. *)
Theorem stats_count_only_cancelled (today1 today2 id : string)
    (startDate endDate : option value) (w : World) (lo hi : string) :
  jsOr startDate (Some (VStr today1)) = Some (VStr lo) →
  jsOr endDate (Some (VStr today2)) = Some (VStr hi) →
  (String.leb lo hi = false →
   getDoctorStats today1 today2 id startDate endDate w
   = Failure 500 "Error fetching doctor statistics")
  ∧ (String.leb lo hi = true →
     (∀ it,
        it ∈ QueryCommand "appointmentId" (Appointments w)
               (statsCommand id (Some (VStr lo)) (Some (VStr hi))) →
        it !! "status" = Some (VStr "scheduled")
        ∨ it !! "status" = Some (VStr "cancelled")) →
     ∃ stats,
       getDoctorStats today1 today2 id startDate endDate w
       = Success 200 stats
       ∧ totalAppointments stats
         = length (QueryCommand "appointmentId" (Appointments w)
                     (statsCommand id (Some (VStr lo)) (Some (VStr hi))))
       ∧ counters stats !! "cancelled"
         = Some (Num (Z.of_nat
                        (length
                           (filter
                              (λ it : item,
                                 it !! "status" = Some (VStr "cancelled"))
                              (QueryCommand "appointmentId" (Appointments w)
                                 (statsCommand id (Some (VStr lo))
                                    (Some (VStr hi))))))))
       ∧ counters stats !! "pending" = Some (Num 0)
       ∧ counters stats !! "completed" = Some (Num 0)
       ∧ counters stats !! "scheduled"
         = (if bool_decide
                 (Exists (λ it : item,
                            it !! "status" = Some (VStr "scheduled"))
                    (QueryCommand "appointmentId" (Appointments w)
                       (statsCommand id (Some (VStr lo))
                          (Some (VStr hi)))))
            then Some NaN else None)).
Proof.
  intros Hlo Hhi. unfold getDoctorStats. cbv zeta. rewrite Hlo, Hhi.
  unfold validQuery.
  cbn [statsCommand KeyConditionExpression FilterExpression
       validKeyCondition validFilter isStr andb].
  rewrite andb_true_r. split; [by intros ->|]. intros -> Hall.
  fold (statsCommand id (Some (VStr lo)) (Some (VStr hi))).
  set (data := QueryCommand _ _ _) in *.
  apply Forall_forall in Hall.
  destruct (foldl_countAppointment data
              {["completed" := Num 0; "cancelled" := Num 0;
                "pending" := Num 0]} ∅ 0 false Hall)
    as (c' & b' & -> & Hp & Hc & Hk & Hs); [by_compute..|].
  eexists. split; [reflexivity|]. simpl. by repeat split.
Qed.

Lemma stats_count_only_cancelled_witness :
  (∃ stats,
     getDoctorStats "2024-01-15" "2024-01-15" "d-1" None None booked1
     = Success 200 stats
     ∧ counters stats !! "pending" = Some (Num 0)
     ∧ counters stats !! "scheduled" = Some NaN)
  ∧ getDoctorStats "2024-01-15" "2024-01-15" "d-1"
      (Some (VStr "2024-02-01")) None booked1
    = Failure 500 "Error fetching doctor statistics".
Proof.
  split.
  - destruct (proj2 (stats_count_only_cancelled "2024-01-15" "2024-01-15"
                       "d-1" None None booked1 "2024-01-15" "2024-01-15"
                       eq_refl eq_refl))
      as (stats & Hget & _ & _ & Hp & _ & Hs).
    + reflexivity.
    + apply Forall_forall. by_compute.
    + exists stats. split; [exact Hget|]. split; [exact Hp|].
      rewrite Hs. by rewrite bool_decide_eq_true_2 by by_compute.
  - apply (proj1 (stats_count_only_cancelled "2024-01-15" "2024-01-15"
                    "d-1" (Some (VStr "2024-02-01")) None booked1
                    "2024-02-01" "2024-01-15" eq_refl eq_refl)).
    reflexivity.
Defined.
